(** * The instruction-table generator of src/index.ts, embedded in Rocq

    src/index.ts holds two revisions of the generator one after the other.
    The development follows the later one (the revision with the [push] and
    [pop] rows, the tags [i1], [i2], [i12] and the [_ 0] alias), which is the
    one every line reference below points into.

    Strings are Stdlib strings: sequences of 8-bit characters, read as the
    UTF-16 code units U+0000..U+00FF.  The JavaScript primitives the program
    calls ([split], [trim], [slice], [join], [parseInt], [toLowerCase], ...)
    are written out on that alphabet in module [Js]; the program itself
    follows, function by function, under the names it has in the source. *)

From Stdlib Require Import String Ascii List Bool Arith NArith ZArith Lia.
From Stdlib Require Import DecimalString.
Import ListNotations.

Local Open Scope list_scope.
Local Open Scope string_scope.

(* ================================================================= *)
(** ** JavaScript primitives *)

Module Js.

(** A JavaScript [number], as far as this program can produce one: [NaN]
    (from [parseInt] on a string without digits) or an integer.  Every
    integer the program builds comes from at most eight digits, far below
    2^53, so no rounding is involved. *)
Inductive number : Type :=
| NaN : number
| Int : Z -> number.

(** What a call either returns or throws ([throw new Error(msg)]). *)
Inductive outcome (A : Type) : Type :=
| Returned : A -> outcome A
| Thrown : string -> outcome A.

Arguments Returned {A} _.
Arguments Thrown {A} _.

Definition bind {A B : Type} (m : outcome A) (k : A -> outcome B) : outcome B :=
  match m with
  | Returned a => k a
  | Thrown msg => Thrown msg
  end.

Notation "x <- m ;; k" := (bind m (fun x => k))
  (at level 61, m at next level, right associativity).

(** [Array.prototype.map] with a callback that may throw: elements are
    visited left to right and the first exception aborts the call. *)
Fixpoint mapM {A B : Type} (f : A -> outcome B) (l : list A) : outcome (list B) :=
  match l with
  | [] => Returned []
  | a :: t => b <- f a ;; bs <- mapM f t ;; Returned (b :: bs)
  end.

Definition LF : ascii := "010"%char.
Definition NL : string := String LF "".

(** WhiteSpace and LineTerminator code units below U+0100: TAB, LF, VT, FF,
    CR, SP and NBSP.  These are what [trim] removes and [parseInt] skips. *)
Definition isWhiteSpace (c : ascii) : bool :=
  existsb (Ascii.eqb c)
    ["009"; "010"; "011"; "012"; "013"; "032"; "160"]%char.

Fixpoint trimStart (s : string) : string :=
  match s with
  | "" => ""
  | String c r => if isWhiteSpace c then trimStart r else s
  end.

Fixpoint trimEnd (s : string) : string :=
  match s with
  | "" => ""
  | String c r =>
      match trimEnd r with
      | "" => if isWhiteSpace c then "" else String c ""
      | r' => String c r'
      end
  end.

Definition trim (s : string) : string := trimEnd (trimStart s).

Fixpoint take (n : nat) (s : string) : string :=
  match n, s with
  | S n', String c r => String c (take n' r)
  | _, _ => ""
  end.

Fixpoint drop (n : nat) (s : string) : string :=
  match n, s with
  | S n', String _ r => drop n' r
  | _, _ => s
  end.

(** [s.slice(b, e)] and [s.slice(b)] for the non-negative indices the
    program uses: indices past the end are clamped. *)
Definition slice (s : string) (b e : nat) : string := take (e - b) (drop b s).
Definition sliceFrom (s : string) (b : nat) : string := drop b s.

(** [s.split(sep)] for a one-character separator. *)
Fixpoint split (sep : ascii) (s : string) : list string :=
  match s with
  | "" => [""]
  | String c r =>
      if Ascii.eqb c sep then "" :: split sep r
      else match split sep r with
           | [] => [String c ""]
           | h :: t => String c h :: t
           end
  end.

(** [s.split("")]: one string per code unit. *)
Fixpoint splitChars (s : string) : list string :=
  match s with
  | "" => []
  | String c r => String c "" :: splitChars r
  end.

(** [a.join(sep)]. *)
Definition join (sep : string) (a : list string) : string := String.concat sep a.

(** [a[k] = v] on an array of strings.  Writing at [k = a.length] appends;
    writing further out leaves holes, which [join] renders as the empty
    string and which are modelled by it. *)
Fixpoint arraySet (a : list string) (k : nat) (v : string) : list string :=
  match k, a with
  | O, [] => [v]
  | O, _ :: t => v :: t
  | S k', [] => "" :: arraySet [] k' v
  | S k', x :: t => x :: arraySet t k' v
  end.

(** [a[k]] read where only its string rendering matters ([undefined]
    renders as the empty string under [join]). *)
Definition arrayGet (a : list string) (k : nat) : string := nth k a "".

(** [s.includes(c)] for a one-character needle. *)
Fixpoint includes (c : ascii) (s : string) : bool :=
  match s with
  | "" => false
  | String d r => Ascii.eqb d c || includes c r
  end.

(** [s.endsWith(suffix)]; the regular expressions of the program are
    alternatives anchored by [$], that is, suffix tests. *)
Definition endsWith (suffix s : string) : bool :=
  String.eqb (drop (String.length s - String.length suffix) s) suffix
  && (String.length suffix <=? String.length s)%nat.

(** [toLowerCase] on code units below U+0100: A-Z and the Latin-1 capitals
    U+00C0..U+00DE (U+00D7, the multiplication sign, apart) move up by 32. *)
Definition lowerChar (c : ascii) : ascii :=
  let n := N_of_ascii c in
  if ((65 <=? n) && (n <=? 90) || (192 <=? n) && (n <=? 222) && negb (n =? 215))%N
  then ascii_of_N (n + 32)
  else c.

Fixpoint toLowerCase (s : string) : string :=
  match s with
  | "" => ""
  | String c r => String (lowerChar c) (toLowerCase r)
  end.

(** The value of a digit of [parseInt]: 0-9, then letters of either case
    from 10 on. *)
Definition digitValue (c : ascii) : option N :=
  let n := N_of_ascii c in
  if ((48 <=? n) && (n <=? 57))%N then Some (n - 48)%N
  else if ((97 <=? n) && (n <=? 122))%N then Some (n - 87)%N
  else if ((65 <=? n) && (n <=? 90))%N then Some (n - 55)%N
  else None.

(** The longest run of digits below [radix] at the front of [s], read left
    to right; [None] while no digit has been read. *)
Fixpoint parseDigits (radix : N) (s : string) (acc : option N) : option N :=
  match s with
  | "" => acc
  | String c r =>
      match digitValue c with
      | Some d =>
          if (d <? radix)%N
          then parseDigits radix r
                 (Some (match acc with Some a => a * radix + d | None => d end)%N)
          else acc
      | None => acc
      end
  end.

(** [parseInt(s, radix)] for an explicit radix other than 16 (no [0x]
    prefix is stripped): leading white space is skipped, one sign is read,
    then the longest run of digits; without a digit the result is [NaN]. *)
Definition parseInt (s : string) (radix : N) : number :=
  let s := trimStart s in
  let '(sign, digits) :=
    match s with
    | String "-" r => ((-1)%Z, r)
    | String "+" r => (1%Z, r)
    | _ => (1%Z, s)
    end in
  match parseDigits radix digits None with
  | Some v => Int (sign * Z.of_N v)
  | None => NaN
  end.

(** [n.toString(10)], which is also how [join] and template literals render
    a number. *)
Definition numberToString (n : number) : string :=
  match n with
  | NaN => "NaN"
  | Int z => NilZero.string_of_int (Z.to_int z)
  end.

End Js.

Import Js.

(* ================================================================= *)
(** ** The program *)

(** The embedded table (src/index.ts, lines 293-358): a template literal
    that opens and closes with a line break. *)
Definition instructions : string :=
  Eval vm_compute in
  join NL
    [ "";
      "2212222222COND";
      "2122222211I_ARG2";
      "2001222233MEM";
      "1222222200I_ARG1";
      "1110010137jgteqi12";
      "1110010037jgti12";
      "1110001137jlteqi12";
      "1110001037jlti12";
      "1110000137jneqi12";
      "1110000037jeqi12";
      "1100011157shli12";
      "1100011057shri12";
      "1100010157xori12";
      "1100001157ori12";
      "1100001057andi12";
      "1100000157subi12";
      "1100000057addi12";
      "1010010137jgteqi1";
      "1010010037jgti1";
      "1010001137jlteqi1";
      "1010001037jlti1";
      "1010000137jneqi1";
      "1010000037jeqi1";
      "1001000147writei1";
      "1001000047readi1";
      "1000011157shli1";
      "1000011057shri1";
      "1000010157xori1";
      "1000010057noti1";
      "1000001157ori1";
      "1000001057andi1";
      "1000000157subi1";
      "1000000057addi1";
      "0110010137jgteqi2";
      "0110010037jgti2";
      "0110001137jlteqi2";
      "0110001037jlti2";
      "0110000137jneqi2";
      "0110000037jeqi2";
      "0100011157shli2";
      "0100011057shri2";
      "0100010157xori2";
      "0100001157ori2";
      "0100001057andi2";
      "0100000157subi2";
      "0100000057addi2";
      "0010010137jgteq";
      "0010010037jgt";
      "0010001137jlteq";
      "0010001037jlt";
      "0010000137jneq";
      "0010000037jeq";
      "0001001147push";
      "0001001047pop";
      "0001000147write";
      "0001000047read";
      "0000011157shl";
      "0000011057shr";
      "0000010157xor";
      "0000010057not";
      "0000001157or";
      "0000001057and";
      "0000000157sub";
      "0000000057add";
      "" ].

Record Instruction : Type := mkInstruction {
  opcodeBits : string;
  nameStartIndex : number;
  nameEndIndex : number;
  name : string
}.

(** [ImmediateMode] is the union of the three tag strings; [modeTag] gives
    the string a mode is at run time. *)
Inductive ImmediateMode : Type :=
| ARG1_IMMEDIATE
| ARG2_IMMEDIATE
| BOTH_ARGS_IMMEDIATE.

Definition modeTag (m : ImmediateMode) : string :=
  match m with
  | ARG1_IMMEDIATE => "i1"
  | ARG2_IMMEDIATE => "i2"
  | BOTH_ARGS_IMMEDIATE => "i12"
  end.

Definition modes : list ImmediateMode :=
  [ARG1_IMMEDIATE; ARG2_IMMEDIATE; BOTH_ARGS_IMMEDIATE].

Definition modeToBits (m : ImmediateMode) : list string :=
  match m with
  | ARG1_IMMEDIATE => ["1"; "0"]
  | ARG2_IMMEDIATE => ["0"; "1"]
  | BOTH_ARGS_IMMEDIATE => ["1"; "1"]
  end.

Definition immediateModeClone (i : Instruction) (mode : ImmediateMode) : Instruction :=
  let bits := splitChars (opcodeBits i) in
  let modeBits := modeToBits mode in
  let bits := arraySet bits 0 (arrayGet modeBits 0) in
  let bits := arraySet bits 1 (arrayGet modeBits 1) in
  {| opcodeBits := join "" bits;
     nameStartIndex := nameStartIndex i;
     nameEndIndex := nameEndIndex i;
     name := name i ++ modeTag mode |}.

Definition deserializeInstructionFromRules (line : string) : Instruction :=
  {| opcodeBits := slice line 0 8;
     nameStartIndex := parseInt (slice line 8 9) 10;
     nameEndIndex := parseInt (slice line 9 10) 10;
     name := sliceFrom line 10 |}.

Definition serializeInstructionToRules (i : Instruction) : string :=
  join "" [opcodeBits i;
           numberToString (nameStartIndex i);
           numberToString (nameEndIndex i);
           name i].

Definition serializeInstructionToAsm (i : Instruction) : outcome string :=
  if includes "2" (opcodeBits i)
  then Thrown ("cannot turn opcode with wildcard to asm: " ++ opcodeBits i)
  else
    let value := parseInt (opcodeBits i) 2 in
    Returned (name i ++ " " ++ numberToString value).

Definition nonEmpty (s : string) : bool :=
  match s with
  | "" => false
  | _ => true
  end.

(** The rows of a table: its lines, trimmed, the blank ones dropped
    (lines 434-436). *)
Definition rowsOf (input : string) : list string :=
  filter nonEmpty (map trim (split LF input)).

Definition readFileInstructions (input : string) : list Instruction :=
  rev (map deserializeInstructionFromRules (rowsOf input)).

Definition stringifyFileInstructionsForFile (instr : list Instruction) : string :=
  join NL (map serializeInstructionToRules instr).

Definition getInstructionImmediateModes (i : Instruction) : list ImmediateMode :=
  if String.eqb (name i) "read" then []
  else if String.eqb (name i) "pop" then []
  else if String.eqb (name i) "not" then [ARG1_IMMEDIATE]
  else if String.eqb (name i) "write" then [ARG1_IMMEDIATE]
  else if String.eqb (name i) "push" then [ARG1_IMMEDIATE]
  else modes.

Definition addImmediateModeClones (i : Instruction) : list Instruction :=
  if includes "2" (opcodeBits i) then [i]
  else
    let modesToAdd :=
      filter (fun a => (0 <? String.length (modeTag a))%nat)
             (getInstructionImmediateModes i) in
    i :: map (fun mode => immediateModeClone i mode) modesToAdd.

(** [/i(12|1|2)$/.test(name)] *)
Definition isImmediateModeName (name : string) : bool :=
  endsWith "i12" name || endsWith "i1" name || endsWith "i2" name.

(** The callback of the [.map] of line 477. *)
Definition lowercaseName (i : Instruction) : Instruction :=
  {| opcodeBits := opcodeBits i;
     nameStartIndex := nameStartIndex i;
     nameEndIndex := nameEndIndex i;
     name := if includes "2" (opcodeBits i) then name i
             else toLowerCase (name i) |}.

(** Lines 474-482, with the table the chain starts from as a parameter:
    the records that survive the filter of line 476, then those records
    after the [.map] of line 477, then the [.flatMap] of line 482. *)
Definition keptInstructions (input : string) : list Instruction :=
  filter (fun i => negb (isImmediateModeName (name i)))
         (readFileInstructions input).

Definition baseInstructions (input : string) : list Instruction :=
  map lowercaseName (keptInstructions input).

Definition expandTable (input : string) : list Instruction :=
  flat_map addImmediateModeClones (baseInstructions input).

Definition instr : list Instruction := expandTable instructions.

Definition rulesContentOf (input : string) : string :=
  stringifyFileInstructionsForFile (expandTable input).

Definition instructionRulesContent : string := rulesContentOf instructions.

(** The constants appended to the assembly table (lines 492-503). *)
Definition asmAppendix : string :=
  Eval vm_compute in
  join NL
    [ ""; "R0 0"; "R1 1"; "R2 2"; "R3 3"; "R4 4"; "R5 5";
      "COUNTER 6"; "INPUT 7"; "OUTPUT 7"; "_ 0"; "" ].

(** The records that reach [serializeInstructionToAsm] (line 489). *)
Definition asmInstructions (input : string) : list Instruction :=
  filter (fun i => negb (includes "2" (opcodeBits i))) (expandTable input).

Definition asmLinesOf (input : string) : outcome (list string) :=
  mapM serializeInstructionToAsm (asmInstructions input).

Definition asmContentOf (input : string) : outcome string :=
  ls <- asmLinesOf input ;;
  Returned (join NL ls ++ asmAppendix).

Definition asmContent : outcome string := asmContentOf instructions.

(** One run of the program on a table (lines 484-505): the files written,
    in the order of the [writeFileSync] calls, each with its content, and
    how the run ends.  The rule table is written before the assembly table
    is computed, so an exception there would leave the first file behind. *)
Definition run (input : string) : list (string * string) * outcome unit :=
  let written := [("./instruction_rules.data", rulesContentOf input)] in
  match asmContentOf input with
  | Returned asm => (app written [("./assembly.data", asm)], Returned tt)
  | Thrown msg => (written, Thrown msg)
  end.

(* ================================================================= *)
(** ** Reference notions used in the statements *)

(** The unsigned decimal numeral of [n]. *)
Definition decimal (n : N) : string := NilZero.string_of_uint (N.to_uint n).

(** The value of a string of binary digits, by position: the character at
    distance [k] from the end weighs [2^k]. *)
Fixpoint binaryValue (s : string) : N :=
  match s with
  | "" => 0
  | String c r =>
      ((if Ascii.eqb c "1" then 1 else 0) * 2 ^ N.of_nat (String.length r)
       + binaryValue r)%N
  end.

Fixpoint allChars (p : ascii -> bool) (s : string) : bool :=
  match s with
  | "" => true
  | String c r => p c && allChars p r
  end.

Definition isTrit (c : ascii) : bool :=
  Ascii.eqb c "0" || Ascii.eqb c "1" || Ascii.eqb c "2".

Definition isIndexDigit (n : number) : bool :=
  match n with
  | Int z => (0 <=? z)%Z && (z <=? 9)%Z
  | NaN => false
  end.

(** The data model's record: eight characters over 0, 1, 2; two one-digit
    indices; a mnemonic that fits on a line (no line break, and nothing
    [trim] would cut at its end). *)
Definition wellFormed (i : Instruction) : bool :=
  (String.length (opcodeBits i) =? 8)%nat
  && allChars isTrit (opcodeBits i)
  && isIndexDigit (nameStartIndex i)
  && isIndexDigit (nameEndIndex i)
  && negb (includes LF (name i))
  && String.eqb (trimEnd (name i)) (name i).

(** What [serializeInstructionToAsm] returns when it returns. *)
Definition asmLine (i : Instruction) : string :=
  name i ++ " " ++ numberToString (parseInt (opcodeBits i) 2).

Fixpoint noDupStrings (l : list string) : bool :=
  match l with
  | [] => true
  | x :: t => negb (existsb (String.eqb x) t) && noDupStrings t
  end.

(* ================================================================= *)
(** ** Sample tables and records *)

(** The example rows of the specification. *)
Definition addTable : string := "0000000007add".

Definition notRecord : Instruction :=
  {| opcodeBits := "00000100";
     nameStartIndex := Int 5;
     nameEndIndex := Int 7;
     name := "not" |}.

(** A row shorter than the ten-character prefix. *)
Definition shortRow : string := "0000".

(** A table whose first row is an authored base instruction whose own
    mnemonic happens to end in a tag. *)
Definition tableWithTagNamedBase : string :=
  Eval vm_compute in join NL ["0010100057jmpi1"; "0000000057add"].

(** A mask row whose name ends in a tag. *)
Definition tableWithTagNamedMask : string := "2122222211ARGi2".

(** A mask row whose ninth character is no digit. *)
Definition tableWithBadIndexMask : string := "22122222x7COND".

(** Two well-formed rows. *)
Definition twoRowTable : string :=
  Eval vm_compute in join NL ["0000000157sub"; "0000000057add"].

(** An upper-case mnemonic that ends in a tag once it is lowercased. *)
Definition tableWithUpperCaseTag : string := "0000000057LDI1".

(* ================================================================= *)
(** ** The earlier revision *)

(** The first half of src/index.ts (lines 1-247) is an earlier revision of
    the same program.  Lines 105-188 are, character for character, lines
    360-443 of the later one: the record type, the modes, [modeToBits],
    [immediateModeClone], the two serializers, the parser and
    [stringifyFileInstructionsForFile] are shared.  What differs is below:
    the table, the policy (no [pop], no [push]) and the regular expression
    of the filter ([/i[abc]$/]). *)
Module Earlier.

(** Lines 46-103. *)
Definition instructions : string :=
  Eval vm_compute in
  join NL
    [ "";
      "2212222222COND";
      "2122222211I_ARG2";
      "2001222233MEM";
      "1222222200I_ARG1";
      "1110010137JGTEQic";
      "1110010037JGTic";
      "1110001137JLTEQic";
      "1110001037JLTic";
      "1110000137JNEQic";
      "1110000037JEQic";
      "1100010157XORic";
      "1100001157ORic";
      "1100001057ANDic";
      "1100000157SUBic";
      "1100000057ADDic";
      "1010010137JGTEQia";
      "1010010037JGTia";
      "1010001137JLTEQia";
      "1010001037JLTia";
      "1010000137JNEQia";
      "1010000037JEQia";
      "1001000147WRITEia";
      "1001000047READia";
      "1000010157XORia";
      "1000010057NOTia";
      "1000001157ORia";
      "1000001057ANDia";
      "1000000157SUBia";
      "1000000057ADDia";
      "0110010137JGTEQib";
      "0110010037JGTib";
      "0110001137JLTEQib";
      "0110001037JLTib";
      "0110000137JNEQib";
      "0110000037JEQib";
      "0100010157XORib";
      "0100001157ORib";
      "0100001057ANDib";
      "0100000157SUBib";
      "0100000057ADDib";
      "0010010137JGTEQ";
      "0010010037JGT";
      "0010001137JLTEQ";
      "0010001037JLT";
      "0010000137JNEQ";
      "0010000037JEQ";
      "0001000147WRITE";
      "0001000047READ";
      "0000011157SHL";
      "0000011057SHR";
      "0000010157XOR";
      "0000010057NOT";
      "0000001157OR";
      "0000001057AND";
      "0000000157SUB";
      "0000000057ADD";
      "" ].

(** Lines 190-204. *)
Definition getInstructionImmediateModes (i : Instruction) : list ImmediateMode :=
  if String.eqb (name i) "read" then []
  else if String.eqb (name i) "not" then [ARG1_IMMEDIATE]
  else if String.eqb (name i) "write" then [ARG1_IMMEDIATE]
  else modes.

(** Lines 206-215. *)
Definition addImmediateModeClones (i : Instruction) : list Instruction :=
  if includes "2" (opcodeBits i) then [i]
  else
    let modesToAdd :=
      filter (fun a => (0 <? String.length (modeTag a))%nat)
             (getInstructionImmediateModes i) in
    i :: map (fun mode => immediateModeClone i mode) modesToAdd.

(** [/i[abc]$/.test(name)] (line 219). *)
Definition isImmediateModeName (name : string) : bool :=
  endsWith "ia" name || endsWith "ib" name || endsWith "ic" name.

(** Lines 217-225, with the table as a parameter. *)
Definition keptInstructions (input : string) : list Instruction :=
  filter (fun i => negb (isImmediateModeName (name i)))
         (readFileInstructions input).

Definition baseInstructions (input : string) : list Instruction :=
  map lowercaseName (keptInstructions input).

Definition expandTable (input : string) : list Instruction :=
  flat_map addImmediateModeClones (baseInstructions input).

Definition instr : list Instruction := expandTable instructions.

Definition rulesContentOf (input : string) : string :=
  stringifyFileInstructionsForFile (expandTable input).

End Earlier.

(* ================================================================= *)
(** ** More sample inputs *)

Definition CR : ascii := "013"%char.

(** The line break of a text file written on Windows. *)
Definition CRLF : string := String CR NL.

(** The longest run of binary digits at the front of a string. *)
Fixpoint binaryPrefix (s : string) : string :=
  match s with
  | "" => ""
  | String c r =>
      if Ascii.eqb c "0" || Ascii.eqb c "1" then String c (binaryPrefix r)
      else ""
  end.

(** A record whose opcode bits are cut short by a stray character, and one
    whose opcode bits are no digits at all. *)
Definition strayBitsRecord : Instruction :=
  {| opcodeBits := "0000x101";
     nameStartIndex := Int 5;
     nameEndIndex := Int 7;
     name := "xor" |}.

Definition noBitsRecord : Instruction :=
  {| opcodeBits := "opcode";
     nameStartIndex := NaN;
     nameEndIndex := NaN;
     name := "" |}.

(** A table of blank lines only: spaces, a tab, line breaks. *)
Definition blankTable : string :=
  Eval vm_compute in join NL ["  "; String "009" ""; ""].

(* ================================================================= *)
(** ** Strings *)

(** Case analysis on a character: its eight bits, 256 closed cases. *)
Ltac char_cases c := destruct c as [[] [] [] [] [] [] [] []].

Section StringFacts.

Lemma append_empty_r (s : string) : s ++ "" = s.
Proof. induction s as [|c s IH]; simpl; [reflexivity | now rewrite IH]. Qed.

Lemma append_assoc (a b c : string) : (a ++ b) ++ c = a ++ (b ++ c).
Proof. induction a as [|x a IH]; simpl; [reflexivity | now rewrite IH]. Qed.

Lemma length_append (a b : string) :
  String.length (a ++ b) = String.length a + String.length b.
Proof. induction a as [|x a IH]; simpl; [reflexivity | now rewrite IH]. Qed.

Lemma take_append_length (a b : string) : take (String.length a) (a ++ b) = a.
Proof. induction a as [|x a IH]; simpl; [now destruct b | now rewrite IH]. Qed.

Lemma drop_append_length (a b : string) : drop (String.length a) (a ++ b) = b.
Proof. induction a as [|x a IH]; simpl; [reflexivity | exact IH]. Qed.

Lemma take_drop (n : nat) (s : string) : take n s ++ drop n s = s.
Proof.
  revert s; induction n as [|n IH]; intros [|c s]; simpl; try reflexivity.
  now rewrite IH.
Qed.

Lemma drop_all (n : nat) (s : string) : String.length s <= n -> drop n s = "".
Proof.
  revert s; induction n as [|n IH]; intros [|c s]; simpl; intros H;
    try reflexivity; try lia.
  apply IH; lia.
Qed.

Lemma take_all (n : nat) (s : string) : String.length s <= n -> take n s = s.
Proof.
  revert s; induction n as [|n IH]; intros [|c s]; simpl; intros H;
    try reflexivity; try lia.
  rewrite IH; [reflexivity | lia].
Qed.

Lemma length_trimStart (s : string) :
  String.length (trimStart s) <= String.length s.
Proof.
  induction s as [|c s IH]; cbn [trimStart]; [lia|].
  destruct (isWhiteSpace c); cbn [String.length]; lia.
Qed.

Lemma length_trimEnd (s : string) :
  String.length (trimEnd s) <= String.length s.
Proof.
  induction s as [|c s IH]; cbn [trimEnd]; [lia|].
  destruct (trimEnd s); [destruct (isWhiteSpace c)|];
    cbn [String.length] in *; lia.
Qed.

Lemma length_trim (s : string) : String.length (trim s) <= String.length s.
Proof.
  unfold trim. pose proof (length_trimEnd (trimStart s)).
  pose proof (length_trimStart s). lia.
Qed.

Lemma includes_append (c : ascii) (a b : string) :
  includes c (a ++ b) = includes c a || includes c b.
Proof.
  induction a as [|x a IH]; simpl; [reflexivity|].
  now rewrite IH, orb_assoc.
Qed.

Lemma join_empty_splitChars (s : string) : join "" (splitChars s) = s.
Proof.
  unfold join; induction s as [|c s IH]; simpl; [reflexivity|].
  destruct (splitChars s) as [|h t]; simpl in *; now rewrite <- IH.
Qed.

Lemma noDupStrings_sound (l : list string) : noDupStrings l = true -> NoDup l.
Proof.
  induction l as [|x t IH]; simpl; intros H; constructor.
  - apply andb_prop in H as [H _].
    intros Hin. apply negb_true_iff in H.
    assert (existsb (String.eqb x) t = true) as E; [|congruence].
    apply existsb_exists. exists x. split; [exact Hin | apply String.eqb_refl].
  - apply IH. now apply andb_prop in H as [_ H].
Qed.

Lemma NoDup_map_filter_nth {A B : Type} (f : A -> B) (p : A -> bool)
      (l : list A) :
  NoDup (map f (filter p l)) ->
  forall n m a b,
    n <> m -> nth_error l n = Some a -> nth_error l m = Some b ->
    p a = true -> p b = true -> f a <> f b.
Proof.
  induction l as [|h t IH]; intros Hnd n m a b Hne Ha Hb Hpa Hpb.
  - destruct n; discriminate Ha.
  - assert (forall k x, nth_error t k = Some x -> p x = true ->
                        In (f x) (map f (filter p t))) as Hin.
    { intros k x Hk Hp. apply in_map, filter_In. split; [|exact Hp].
      eapply nth_error_In, Hk. }
    cbn [filter] in Hnd. destruct n as [|n], m as [|m]; cbn [nth_error] in Ha, Hb.
    + congruence.
    + injection Ha as ->. rewrite Hpa in Hnd. cbn [map] in Hnd.
      apply NoDup_cons_iff in Hnd as [Hnot _].
      intros E. apply Hnot. rewrite E. now apply (Hin m).
    + injection Hb as ->. rewrite Hpb in Hnd. cbn [map] in Hnd.
      apply NoDup_cons_iff in Hnd as [Hnot _].
      intros E. apply Hnot. rewrite <- E. now apply (Hin n).
    + apply (IH) with (n := n) (m := m); try assumption; try congruence.
      destruct (p h); [|exact Hnd]. cbn [map] in Hnd.
      now apply NoDup_cons_iff in Hnd.
Qed.

End StringFacts.

(* ================================================================= *)
(** ** Numbers *)

Section NumberFacts.

Lemma parseDigits_binary (s : string) (a : N) :
  allChars (fun c => Ascii.eqb c "0" || Ascii.eqb c "1") s = true ->
  parseDigits 2 s (Some a)
  = Some (a * 2 ^ N.of_nat (String.length s) + binaryValue s)%N.
Proof.
  revert a; induction s as [|c s IH]; intros a H.
  - simpl. f_equal; lia.
  - cbn [allChars parseDigits binaryValue String.length] in *.
    apply andb_prop in H as [Hc Hs].
    assert (c = "0"%char \/ c = "1"%char) as [-> | ->].
    { apply orb_prop in Hc as [E | E]; apply Ascii.eqb_eq in E; auto. }
    + change (digitValue "0") with (Some 0%N).
      change (0 <? 2)%N with true. cbv iota. rewrite IH by exact Hs.
      change (Ascii.eqb "0" "1") with false. cbv iota.
      rewrite Nat2N.inj_succ, N.pow_succ_r'. apply f_equal. ring.
    + change (digitValue "1") with (Some 1%N).
      change (1 <? 2)%N with true. cbv iota. rewrite IH by exact Hs.
      change (Ascii.eqb "1" "1") with true. cbv iota.
      rewrite Nat2N.inj_succ, N.pow_succ_r'. apply f_equal. ring.
Qed.

Lemma parseInt_unsigned (c : ascii) (s : string) (radix : N) :
  isWhiteSpace c = false -> c <> "-"%char -> c <> "+"%char ->
  parseInt (String c s) radix
  = match parseDigits radix (String c s) None with
    | Some v => Int (Z.of_N v)
    | None => NaN
    end.
Proof.
  intros Hw Hm Hp. unfold parseInt. cbn [trimStart]. rewrite Hw.
  char_cases c; try congruence;
    cbv beta iota zeta;
    destruct (parseDigits radix _ None); try reflexivity;
    now rewrite Z.mul_1_l.
Qed.

Lemma parseInt_binary (s : string) :
  s <> "" ->
  allChars (fun c => Ascii.eqb c "0" || Ascii.eqb c "1") s = true ->
  parseInt s 2 = Int (Z.of_N (binaryValue s)).
Proof.
  intros Hne H. destruct s as [|c s]; [congruence|]. clear Hne.
  cbn [allChars] in H. apply andb_prop in H as [Hc Hs].
  assert (c = "0"%char \/ c = "1"%char) as [-> | ->].
  { apply orb_prop in Hc as [E | E]; apply Ascii.eqb_eq in E; auto. }
  - rewrite parseInt_unsigned by (reflexivity || discriminate).
    cbn [parseDigits binaryValue].
    change (digitValue "0") with (Some 0%N).
    change (0 <? 2)%N with true. cbv iota.
    rewrite parseDigits_binary by exact Hs.
    change (Ascii.eqb "0" "1") with false. cbv iota.
    do 2 apply f_equal. ring.
  - rewrite parseInt_unsigned by (reflexivity || discriminate).
    cbn [parseDigits binaryValue].
    change (digitValue "1") with (Some 1%N).
    change (1 <? 2)%N with true. cbv iota.
    rewrite parseDigits_binary by exact Hs.
    change (Ascii.eqb "1" "1") with true. cbv iota.
    do 2 apply f_equal. ring.
Qed.

Lemma numberToString_of_N (n : N) : numberToString (Int (Z.of_N n)) = decimal n.
Proof. destruct n; reflexivity. Qed.

Lemma binary_of_trits (s : string) :
  allChars isTrit s = true -> includes "2" s = false ->
  allChars (fun c => Ascii.eqb c "0" || Ascii.eqb c "1") s = true.
Proof.
  induction s as [|c s IH]; simpl; [reflexivity|]. intros H1 H2.
  apply andb_prop in H1 as [Hc Hs]. apply orb_false_elim in H2 as [Hn Hi].
  rewrite IH by assumption. unfold isTrit in Hc. rewrite Hn, orb_false_r in Hc.
  now rewrite Hc.
Qed.

End NumberFacts.

(* ================================================================= *)
(** ** The expander and the assembly serializer *)

Section ExpanderFacts.

Lemma clone_opcodeBits (s a b : string) :
  join "" (arraySet (arraySet (splitChars s) 0 a) 1 b) = a ++ b ++ drop 2 s.
Proof.
  destruct s as [|c1 [|c2 r]]; unfold join; cbn [splitChars arraySet drop].
  - cbn. now rewrite append_empty_r.
  - cbn. now rewrite append_empty_r.
  - cbn [String.concat]. cbn [append].
    destruct (splitChars r) as [|h t] eqn:E.
    + pose proof (join_empty_splitChars r) as J. rewrite E in J. cbn in J.
      subst r. now rewrite !append_empty_r.
    + rewrite <- E. fold (join "" (splitChars r)).
      now rewrite join_empty_splitChars.
Qed.

Lemma immediateModeClone_opcodeBits (i : Instruction) (mode : ImmediateMode) :
  opcodeBits (immediateModeClone i mode)
  = arrayGet (modeToBits mode) 0 ++ arrayGet (modeToBits mode) 1
    ++ drop 2 (opcodeBits i).
Proof. unfold immediateModeClone; cbn [opcodeBits]. apply clone_opcodeBits. Qed.

Lemma modesToAdd_all (l : list ImmediateMode) :
  filter (fun a => (0 <? String.length (modeTag a))%nat) l = l.
Proof.
  induction l as [|m l IH]; [reflexivity|].
  cbn [filter]. rewrite IH. now destruct m.
Qed.

Lemma addImmediateModeClones_concrete (i : Instruction) :
  includes "2" (opcodeBits i) = false ->
  addImmediateModeClones i
  = i :: map (immediateModeClone i) (getInstructionImmediateModes i).
Proof.
  intros H. unfold addImmediateModeClones. rewrite H.
  now rewrite modesToAdd_all.
Qed.

Lemma serializeInstructionToAsm_thrown (i : Instruction) :
  (exists msg, serializeInstructionToAsm i = Thrown msg)
  <-> includes "2" (opcodeBits i) = true.
Proof.
  unfold serializeInstructionToAsm.
  destruct (includes "2" (opcodeBits i)); split; intros H.
  - reflexivity.
  - eexists; reflexivity.
  - destruct H as [msg H]; discriminate.
  - discriminate.
Qed.

Lemma mapM_returned {A B : Type} (f : A -> outcome B) (g : A -> B) (l : list A) :
  (forall a, In a l -> f a = Returned (g a)) ->
  mapM f l = Returned (map g l).
Proof.
  induction l as [|a l IH]; intros H; [reflexivity|].
  cbn [mapM map]. rewrite (H a) by now left. cbn [bind].
  rewrite IH; [reflexivity|]. intros x Hx. apply H. now right.
Qed.

Lemma asmLinesOf_returned (input : string) :
  asmLinesOf input = Returned (map asmLine (asmInstructions input)).
Proof.
  unfold asmLinesOf. apply mapM_returned. intros i Hi.
  unfold asmInstructions in Hi. apply filter_In in Hi as [_ Hi].
  apply negb_true_iff in Hi.
  unfold serializeInstructionToAsm. now rewrite Hi.
Qed.

Lemma run_returned (input : string) :
  run input
  = ([("./instruction_rules.data", rulesContentOf input);
      ("./assembly.data",
       join NL (map asmLine (asmInstructions input)) ++ asmAppendix)],
     Returned tt).
Proof.
  unfold run, asmContentOf. now rewrite asmLinesOf_returned.
Qed.

End ExpanderFacts.

(* ================================================================= *)
(** ** The parser and the rule-row serializer *)

Section ParserFacts.

Lemma split_no_separator (l : string) :
  includes LF l = false -> split LF l = [l].
Proof.
  induction l as [|c l IH]; cbn [includes split]; intros H; [reflexivity|].
  apply orb_false_elim in H as [Hc Hl]. rewrite Hc, IH by exact Hl. reflexivity.
Qed.

Lemma split_append_separator (l rest : string) :
  includes LF l = false ->
  split LF (l ++ String LF rest) = l :: split LF rest.
Proof.
  induction l as [|c l IH]; cbn [includes split append]; intros H.
  - now rewrite Ascii.eqb_refl.
  - apply orb_false_elim in H as [Hc Hl]. rewrite Hc, IH by exact Hl. reflexivity.
Qed.

Lemma split_join (ls : list string) :
  ls <> [] -> (forall l, In l ls -> includes LF l = false) ->
  split LF (join NL ls) = ls.
Proof.
  unfold join. induction ls as [|x t IH]; intros Hne H; [congruence|].
  destruct t as [|y t].
  - cbn [String.concat]. apply split_no_separator, H. now left.
  - change (String.concat NL (x :: y :: t))
      with (x ++ String LF (String.concat NL (y :: t))).
    rewrite split_append_separator by (apply H; now left).
    rewrite IH; [reflexivity | discriminate |].
    intros l Hl. apply H. now right.
Qed.

Lemma drop_drop (n m : nat) (s : string) : drop m (drop n s) = drop (n + m) s.
Proof.
  revert s; induction n as [|n IH]; intros s; [reflexivity|].
  destruct s as [|c s]; cbn [drop Nat.add]; [now destruct m | apply IH].
Qed.

Lemma digit_roundtrip (t : string) :
  isIndexDigit (parseInt (take 1 t) 10) = true ->
  exists c, t = String c (drop 1 t)
            /\ numberToString (parseInt (take 1 t) 10) = String c "".
Proof.
  destruct t as [|c t]; [discriminate|]. cbn [take drop].
  intros H. exists c. split; [reflexivity|]. revert H.
  char_cases c;
    vm_compute; intros H; (discriminate H || reflexivity).
Qed.

(** A row whose two index characters are digits is reproduced by parsing
    and serializing it. *)
Lemma serialize_deserialize (l : string) :
  isIndexDigit (nameStartIndex (deserializeInstructionFromRules l)) = true ->
  isIndexDigit (nameEndIndex (deserializeInstructionFromRules l)) = true ->
  serializeInstructionToRules (deserializeInstructionFromRules l) = l.
Proof.
  unfold deserializeInstructionFromRules, serializeInstructionToRules, slice,
    sliceFrom, join.
  cbn [opcodeBits nameStartIndex nameEndIndex name Nat.sub String.concat].
  change (drop 0 l) with l.
  replace (drop 9 l) with (drop 1 (drop 8 l)) by apply drop_drop.
  replace (drop 10 l) with (drop 1 (drop 1 (drop 8 l)))
    by (now rewrite !drop_drop).
  pose proof (take_drop 8 l) as E. remember (drop 8 l) as t eqn:Et.
  intros H1 H2.
  destruct (digit_roundtrip _ H1) as (c1 & E1 & ->).
  destruct (digit_roundtrip _ H2) as (c2 & E2 & ->).
  cbn [append]. rewrite <- E2, <- E1. exact E.
Qed.

Lemma lowercaseName_wildcard (r : Instruction) :
  includes "2" (opcodeBits r) = true -> lowercaseName r = r.
Proof. destruct r; unfold lowercaseName; cbn; now intros ->. Qed.

Lemma In_readFileInstructions (input : string) (r : Instruction) :
  In r (readFileInstructions input)
  <-> exists row, In row (rowsOf input) /\ deserializeInstructionFromRules row = r.
Proof.
  unfold readFileInstructions. rewrite <- in_rev, in_map_iff.
  split; intros (row & H1 & H2); exists row; tauto.
Qed.

End ParserFacts.

(* ================================================================= *)
(** ** Well-formed records and the round trip *)

Section RoundTrip.

Lemma wellFormed_inv (i : Instruction) :
  wellFormed i = true ->
  String.length (opcodeBits i) = 8
  /\ allChars isTrit (opcodeBits i) = true
  /\ isIndexDigit (nameStartIndex i) = true
  /\ isIndexDigit (nameEndIndex i) = true
  /\ includes LF (name i) = false
  /\ trimEnd (name i) = name i.
Proof.
  unfold wellFormed. intros H.
  repeat (apply andb_prop in H as [H ?]).
  repeat split; try assumption.
  - now apply Nat.eqb_eq.
  - now apply negb_true_iff.
  - now apply String.eqb_eq.
Qed.

Lemma wellFormed_intro (i : Instruction) :
  String.length (opcodeBits i) = 8 ->
  allChars isTrit (opcodeBits i) = true ->
  isIndexDigit (nameStartIndex i) = true ->
  isIndexDigit (nameEndIndex i) = true ->
  includes LF (name i) = false ->
  trimEnd (name i) = name i ->
  wellFormed i = true.
Proof.
  intros H1 H2 H3 H4 H5 H6. unfold wellFormed.
  rewrite H1, H2, H3, H4, H5, H6. cbn. apply String.eqb_refl.
Qed.

Lemma trimEnd_cons (c : ascii) (r : string) :
  isWhiteSpace c = false -> trimEnd (String c r) = String c (trimEnd r).
Proof. intros H. cbn [trimEnd]. rewrite H. now destruct (trimEnd r). Qed.

Lemma trimEnd_append_fixed (s t : string) :
  trimEnd t = t -> t <> "" -> trimEnd (s ++ t) = s ++ t.
Proof.
  intros Ht Hne. induction s as [|c s IH]; cbn [append trimEnd]; [exact Ht|].
  rewrite IH. destruct (s ++ t) eqn:E; [|reflexivity].
  destruct s; cbn in E; congruence.
Qed.

Lemma isTrit_not_space (c : ascii) :
  isTrit c = true -> isWhiteSpace c = false /\ Ascii.eqb c LF = false.
Proof.
  unfold isTrit. intros H.
  apply orb_prop in H as [H | H]; [apply orb_prop in H as [H | H]|];
    apply Ascii.eqb_eq in H; subst c; split; reflexivity.
Qed.

Lemma trimEnd_trits (a b : string) :
  allChars isTrit a = true -> trimEnd (a ++ b) = a ++ trimEnd b.
Proof.
  induction a as [|c a IH]; cbn [allChars append]; intros H; [reflexivity|].
  apply andb_prop in H as [Hc Ha].
  rewrite trimEnd_cons by now apply isTrit_not_space.
  now rewrite IH.
Qed.

Lemma includes_LF_trits (a : string) :
  allChars isTrit a = true -> includes LF a = false.
Proof.
  induction a as [|c a IH]; cbn [allChars includes]; intros H; [reflexivity|].
  apply andb_prop in H as [Hc Ha].
  rewrite IH by exact Ha. now rewrite (proj2 (isTrit_not_space c Hc)).
Qed.

(** The numeral of a one-digit index: one character, neither white space
    nor a line break, which [parseInt] reads back. *)
Lemma index_digit_numeral (n : number) :
  isIndexDigit n = true ->
  exists c, numberToString n = String c ""
            /\ isWhiteSpace c = false /\ Ascii.eqb c LF = false
            /\ parseInt (String c "") 10 = n.
Proof.
  destruct n as [|z]; [discriminate|]. cbn [isIndexDigit]. intros H.
  apply andb_prop in H as [H1 H2].
  apply Z.leb_le in H1. apply Z.leb_le in H2.
  assert (z = 0 \/ z = 1 \/ z = 2 \/ z = 3 \/ z = 4 \/ z = 5 \/ z = 6
          \/ z = 7 \/ z = 8 \/ z = 9)%Z as E by lia.
  repeat (destruct E as [-> | E]); try subst z;
    eexists; repeat split; reflexivity.
Qed.

(** The line of a well-formed record, taken apart. *)
Lemma serialize_wellFormed (r : Instruction) :
  wellFormed r = true ->
  exists c1 c2,
    serializeInstructionToRules r
    = opcodeBits r ++ String c1 (String c2 (name r))
    /\ isWhiteSpace c1 = false /\ Ascii.eqb c1 LF = false
    /\ isWhiteSpace c2 = false /\ Ascii.eqb c2 LF = false
    /\ parseInt (String c1 "") 10 = nameStartIndex r
    /\ parseInt (String c2 "") 10 = nameEndIndex r.
Proof.
  intros H. apply wellFormed_inv in H as (_ & _ & H3 & H4 & _ & _).
  destruct (index_digit_numeral _ H3) as (c1 & E1 & W1 & L1 & P1).
  destruct (index_digit_numeral _ H4) as (c2 & E2 & W2 & L2 & P2).
  exists c1, c2. repeat split; try assumption.
  unfold serializeInstructionToRules, join. cbn [String.concat].
  rewrite E1, E2. reflexivity.
Qed.

Lemma deserialize_serialize (r : Instruction) :
  wellFormed r = true ->
  deserializeInstructionFromRules (serializeInstructionToRules r) = r.
Proof.
  intros H. destruct (serialize_wellFormed r H)
    as (c1 & c2 & E & _ & _ & _ & _ & P1 & P2).
  apply wellFormed_inv in H as (Hlen & _).
  rewrite E. unfold deserializeInstructionFromRules, slice, sliceFrom.
  cbn [Nat.sub]. change (drop 0 ?x) with x.
  replace 10 with (String.length (opcodeBits r) + 2) by lia.
  replace 9 with (String.length (opcodeBits r) + 1) by lia.
  replace 8 with (String.length (opcodeBits r)) by exact Hlen.
  rewrite <- !drop_drop, take_append_length, drop_append_length.
  cbn [drop take]. rewrite P1, P2. now destruct r.
Qed.

Lemma trim_serialize (r : Instruction) :
  wellFormed r = true ->
  trim (serializeInstructionToRules r) = serializeInstructionToRules r.
Proof.
  intros H. destruct (serialize_wellFormed r H)
    as (c1 & c2 & E & W1 & _ & W2 & _ & _ & _).
  apply wellFormed_inv in H as (Hlen & Htrit & _ & _ & _ & Hname).
  rewrite E. unfold trim.
  destruct (opcodeBits r) as [|b bits] eqn:Eb; [discriminate|].
  cbn [append trimStart]. cbn [allChars] in Htrit.
  apply andb_prop in Htrit as [Hb Hbits].
  rewrite (proj1 (isTrit_not_space b Hb)).
  rewrite trimEnd_cons by now apply isTrit_not_space.
  rewrite trimEnd_trits by exact Hbits.
  now rewrite !trimEnd_cons, Hname by assumption.
Qed.

Lemma serialize_no_LF (r : Instruction) :
  wellFormed r = true -> includes LF (serializeInstructionToRules r) = false.
Proof.
  intros H. destruct (serialize_wellFormed r H)
    as (c1 & c2 & E & _ & L1 & _ & L2 & _ & _).
  apply wellFormed_inv in H as (_ & Htrit & _ & _ & Hname & _).
  rewrite E, includes_append, includes_LF_trits by exact Htrit.
  cbn [includes orb]. now rewrite L1, L2, Hname.
Qed.

Lemma serialize_nonEmpty (r : Instruction) :
  wellFormed r = true -> nonEmpty (serializeInstructionToRules r) = true.
Proof.
  intros H. destruct (serialize_wellFormed r H) as (c1 & c2 & E & _).
  rewrite E. now destruct (opcodeBits r).
Qed.

Lemma rowsOf_stringify (rs : list Instruction) :
  forallb wellFormed rs = true ->
  rowsOf (stringifyFileInstructionsForFile rs)
  = map serializeInstructionToRules rs.
Proof.
  intros H. unfold rowsOf, stringifyFileInstructionsForFile.
  destruct rs as [|r rs]; [reflexivity|].
  rewrite forallb_forall in H.
  rewrite split_join.
  - set (ls := r :: rs) in *. clearbody ls.
    induction ls as [|x ls IH]; [reflexivity|].
    cbn [map filter]. rewrite trim_serialize, serialize_nonEmpty
      by (apply H; now left).
    rewrite IH; [reflexivity|]. intros y Hy. apply H. now right.
  - discriminate.
  - intros l Hl. apply in_map_iff in Hl as (x & <- & Hx).
    apply serialize_no_LF, H, Hx.
Qed.

(** Parsing the rule table written for well-formed records gives the
    records back, last one first. *)
Lemma readFileInstructions_stringify (rs : list Instruction) :
  forallb wellFormed rs = true ->
  readFileInstructions (stringifyFileInstructionsForFile rs) = rev rs.
Proof.
  intros H. unfold readFileInstructions. rewrite rowsOf_stringify by exact H.
  f_equal. rewrite map_map. rewrite forallb_forall in H.
  induction rs as [|r rs IH]; [reflexivity|]. cbn [map].
  rewrite deserialize_serialize by (apply H; now left).
  rewrite IH; [reflexivity|]. intros y Hy. apply H. now right.
Qed.

End RoundTrip.

(* ================================================================= *)
(** ** Expanding an expanded table *)

Section Reprocessing.

Lemma lowerChar_idempotent (c : ascii) : lowerChar (lowerChar c) = lowerChar c.
Proof. char_cases c; reflexivity. Qed.

Lemma lowerChar_space (c : ascii) : isWhiteSpace (lowerChar c) = isWhiteSpace c.
Proof. char_cases c; reflexivity. Qed.

Lemma lowerChar_LF (c : ascii) : Ascii.eqb (lowerChar c) LF = Ascii.eqb c LF.
Proof. char_cases c; reflexivity. Qed.

Lemma toLowerCase_idempotent (s : string) :
  toLowerCase (toLowerCase s) = toLowerCase s.
Proof.
  induction s as [|c s IH]; cbn [toLowerCase]; [reflexivity|].
  now rewrite lowerChar_idempotent, IH.
Qed.

Lemma includes_LF_toLowerCase (s : string) :
  includes LF (toLowerCase s) = includes LF s.
Proof.
  induction s as [|c s IH]; cbn [toLowerCase includes]; [reflexivity|].
  now rewrite lowerChar_LF, IH.
Qed.

Lemma trimEnd_toLowerCase (s : string) :
  trimEnd (toLowerCase s) = toLowerCase (trimEnd s).
Proof.
  induction s as [|c s IH]; cbn [toLowerCase trimEnd]; [reflexivity|].
  rewrite IH, lowerChar_space.
  destruct (trimEnd s); cbn [toLowerCase]; [|reflexivity].
  now destruct (isWhiteSpace c).
Qed.

Lemma lowercaseName_idempotent (r : Instruction) :
  lowercaseName (lowercaseName r) = lowercaseName r.
Proof.
  unfold lowercaseName; cbn [opcodeBits nameStartIndex nameEndIndex name].
  destruct (includes "2" (opcodeBits r)); [reflexivity|].
  now rewrite toLowerCase_idempotent.
Qed.

Lemma wellFormed_lowercaseName (r : Instruction) :
  wellFormed r = true -> wellFormed (lowercaseName r) = true.
Proof.
  intros H. apply wellFormed_inv in H as (H1 & H2 & H3 & H4 & H5 & H6).
  apply wellFormed_intro; unfold lowercaseName;
    cbn [opcodeBits nameStartIndex nameEndIndex name]; try assumption;
    destruct (includes "2" (opcodeBits r)); try assumption.
  - now rewrite includes_LF_toLowerCase.
  - now rewrite trimEnd_toLowerCase, H6.
Qed.

Lemma wellFormed_immediateModeClone (r : Instruction) (mode : ImmediateMode) :
  wellFormed r = true -> wellFormed (immediateModeClone r mode) = true.
Proof.
  intros H. apply wellFormed_inv in H as (H1 & H2 & H3 & H4 & H5 & H6).
  apply wellFormed_intro; try rewrite immediateModeClone_opcodeBits;
    try (unfold immediateModeClone;
         cbn [nameStartIndex nameEndIndex name]; assumption).
  - destruct (opcodeBits r) as [|c1 [|c2 bits]]; try discriminate H1.
    destruct mode; cbn in *; exact H1.
  - destruct (opcodeBits r) as [|c1 [|c2 bits]]; try discriminate H1.
    cbn [allChars] in H2.
    apply andb_prop in H2 as [_ H2]. apply andb_prop in H2 as [_ H2].
    destruct mode; cbn; exact H2.
  - unfold immediateModeClone; cbn [name].
    rewrite includes_append, H5. now destruct mode.
  - unfold immediateModeClone; cbn [name].
    apply trimEnd_append_fixed; now destruct mode.
Qed.

Lemma wellFormed_addImmediateModeClones (r : Instruction) :
  wellFormed r = true -> forallb wellFormed (addImmediateModeClones r) = true.
Proof.
  intros H. apply forallb_forall. intros x Hx.
  unfold addImmediateModeClones in Hx.
  destruct (includes "2" (opcodeBits r)).
  - destruct Hx as [<- | []]. exact H.
  - destruct Hx as [<- | Hx]; [exact H|].
    apply in_map_iff in Hx as (m & <- & _).
    now apply wellFormed_immediateModeClone.
Qed.

Lemma wellFormed_expandTable (input : string) :
  forallb wellFormed (readFileInstructions input) = true ->
  forallb wellFormed (expandTable input) = true.
Proof.
  intros H. rewrite forallb_forall in H. apply forallb_forall. intros x Hx.
  unfold expandTable in Hx. apply in_flat_map in Hx as (b & Hb & Hx).
  unfold baseInstructions in Hb. apply in_map_iff in Hb as (k & <- & Hk).
  unfold keptInstructions in Hk. apply filter_In in Hk as [Hk _].
  pose proof (wellFormed_addImmediateModeClones (lowercaseName k)) as W.
  rewrite forallb_forall in W. apply W; [|exact Hx].
  apply wellFormed_lowercaseName, H, Hk.
Qed.

Lemma endsWith_append (s t : string) : endsWith t (s ++ t) = true.
Proof.
  unfold endsWith. rewrite length_append, Nat.add_sub, drop_append_length.
  rewrite String.eqb_refl. apply Nat.leb_le. lia.
Qed.

Lemma isImmediateModeName_clone (r : Instruction) (mode : ImmediateMode) :
  isImmediateModeName (name (immediateModeClone r mode)) = true.
Proof.
  unfold immediateModeClone, isImmediateModeName; cbn [name].
  destruct mode; cbn [modeTag].
  - rewrite (endsWith_append (name r) "i1"). apply orb_true_iff. left.
    apply orb_true_r.
  - rewrite (endsWith_append (name r) "i2"). apply orb_true_r.
  - now rewrite (endsWith_append (name r) "i12").
Qed.

(** Of the records a base record expands to, the filter of line 476 keeps
    the base record alone, provided the base mnemonic passes it. *)
Lemma filter_addImmediateModeClones (b : Instruction) :
  isImmediateModeName (name b) = false ->
  filter (fun i => negb (isImmediateModeName (name i))) (addImmediateModeClones b)
  = [b].
Proof.
  intros Hb. unfold addImmediateModeClones.
  destruct (includes "2" (opcodeBits b)); cbn [filter]; rewrite Hb; cbn [negb];
    [reflexivity|].
  f_equal.
  induction (filter (fun a => (0 <? String.length (modeTag a))%nat)
               (getInstructionImmediateModes b)) as [|m l IH]; [reflexivity|].
  cbn [map filter]. now rewrite isImmediateModeName_clone.
Qed.

Lemma filter_expanded (bs : list Instruction) :
  forallb (fun i => negb (isImmediateModeName (name i))) bs = true ->
  filter (fun i => negb (isImmediateModeName (name i)))
         (flat_map addImmediateModeClones bs)
  = bs.
Proof.
  induction bs as [|b bs IH]; cbn [forallb flat_map]; intros H; [reflexivity|].
  apply andb_prop in H as [Hb Hbs]. apply negb_true_iff in Hb.
  rewrite filter_app, filter_addImmediateModeClones, IH by assumption.
  reflexivity.
Qed.

Lemma map_lowercaseName_base (input : string) :
  map lowercaseName (baseInstructions input) = baseInstructions input.
Proof.
  unfold baseInstructions. rewrite map_map. apply map_ext.
  exact lowercaseName_idempotent.
Qed.

(** What the filter of line 476 keeps of an expanded table: the base
    records, last one first. *)
Lemma keptInstructions_rulesContentOf (input : string) :
  forallb wellFormed (readFileInstructions input) = true ->
  forallb (fun i => negb (isImmediateModeName (name i))) (baseInstructions input)
  = true ->
  keptInstructions (rulesContentOf input) = rev (baseInstructions input).
Proof.
  intros Hwf Hbase. unfold keptInstructions, rulesContentOf.
  rewrite readFileInstructions_stringify by now apply wellFormed_expandTable.
  unfold expandTable.
  rewrite <- (rev_involutive (filter _ (rev _))), <- filter_rev, rev_involutive.
  now rewrite filter_expanded by exact Hbase.
Qed.

(** The expanded table of an expanded table: the same families, last
    family first. *)
Lemma expandTable_rulesContentOf (input : string) :
  forallb wellFormed (readFileInstructions input) = true ->
  forallb (fun i => negb (isImmediateModeName (name i))) (baseInstructions input)
  = true ->
  expandTable (rulesContentOf input)
  = flat_map addImmediateModeClones (rev (baseInstructions input)).
Proof.
  intros Hwf Hbase. unfold expandTable at 1, baseInstructions at 1.
  rewrite keptInstructions_rulesContentOf by assumption.
  now rewrite map_rev, map_lowercaseName_base.
Qed.

Lemma rows_of_wellFormed (rows : list string) :
  forallb (fun l => wellFormed (deserializeInstructionFromRules l)) rows = true ->
  map serializeInstructionToRules (map deserializeInstructionFromRules rows)
  = rows
  /\ forallb wellFormed (map deserializeInstructionFromRules rows) = true.
Proof.
  intros H. rewrite forallb_forall in H. split.
  - rewrite map_map. rewrite <- (map_id rows) at 2. apply map_ext_in.
    intros l Hl. apply H in Hl.
    apply wellFormed_inv in Hl as (_ & _ & H3 & H4 & _).
    now apply serialize_deserialize.
  - apply forallb_forall. intros r Hr.
    apply in_map_iff in Hr as (l & <- & Hl). now apply H.
Qed.

End Reprocessing.

(* ================================================================= *)
(** ** Lengths of rows *)

Section RowFacts.

Lemma length_take (n : nat) (s : string) :
  String.length (take n s) = Nat.min n (String.length s).
Proof.
  revert s; induction n as [|n IH]; intros [|c s]; cbn [take String.length];
    try reflexivity.
  now rewrite IH.
Qed.

Lemma length_drop (n : nat) (s : string) :
  String.length (drop n s) = String.length s - n.
Proof.
  revert s; induction n as [|n IH]; intros [|c s]; cbn [drop String.length];
    try reflexivity.
  apply IH.
Qed.

(** What [parseInt] reads from at most one character: a digit or nothing. *)
Lemma parseInt_one_char (t : string) :
  parseInt (take 1 t) 10 = NaN
  \/ isIndexDigit (parseInt (take 1 t) 10) = true.
Proof.
  destruct t as [|c t]; [left; reflexivity|]. cbn [take].
  char_cases c; vm_compute; auto.
Qed.

Lemma numeral_not_shorter (t : string) :
  String.length (take 1 t)
  <= String.length (numberToString (parseInt (take 1 t) 10)).
Proof.
  destruct t as [|c t]; [cbn; lia|]. cbn [take].
  char_cases c; vm_compute; lia.
Qed.

Lemma numeral_longer (t : string) :
  isIndexDigit (parseInt (take 1 t) 10) = false ->
  String.length (take 1 t)
  < String.length (numberToString (parseInt (take 1 t) 10)).
Proof.
  intros H. destruct (parseInt_one_char t) as [E | E]; [|congruence].
  rewrite E. rewrite length_take.
  change (String.length (numberToString NaN)) with 3. lia.
Qed.

Lemma length_serialize (i : Instruction) :
  String.length (serializeInstructionToRules i)
  = String.length (opcodeBits i)
    + String.length (numberToString (nameStartIndex i))
    + String.length (numberToString (nameEndIndex i))
    + String.length (name i).
Proof.
  unfold serializeInstructionToRules, join. cbn [String.concat append].
  rewrite !length_append. lia.
Qed.

(** A line is reproduced by parsing and serializing it exactly when both
    of its index characters are digits: a missing digit is written as
    [NaN], three characters where there was at most one. *)
Lemma serialize_deserialize_iff (line : string) :
  serializeInstructionToRules (deserializeInstructionFromRules line) = line
  <-> isIndexDigit (nameStartIndex (deserializeInstructionFromRules line)) = true
      /\ isIndexDigit (nameEndIndex (deserializeInstructionFromRules line)) = true.
Proof.
  split; [|intros [H1 H2]; now apply serialize_deserialize].
  intros E. apply (f_equal String.length) in E.
  rewrite length_serialize in E. revert E.
  unfold deserializeInstructionFromRules, slice, sliceFrom.
  cbn [opcodeBits nameStartIndex nameEndIndex name Nat.sub].
  change (drop 0 line) with line.
  pose proof (numeral_not_shorter (drop 8 line)) as L1.
  pose proof (numeral_not_shorter (drop 9 line)) as L2.
  pose proof (numeral_longer (drop 8 line)) as S1.
  pose proof (numeral_longer (drop 9 line)) as S2.
  rewrite !length_take, !length_drop in *.
  destruct (isIndexDigit (parseInt (take 1 (drop 8 line)) 10));
    destruct (isIndexDigit (parseInt (take 1 (drop 9 line)) 10));
    intros E; try (split; reflexivity);
    try specialize (S1 eq_refl); try specialize (S2 eq_refl); lia.
Qed.

End RowFacts.

(* ================================================================= *)
(** ** The properties of the specification *)

(** C1.  In the table expanded from the embedded one, the opcode bits of the
    records without a wildcard are pairwise different: listed in table
    order, no value occurs twice; so any two records at different positions
    of the table, neither with a wildcard, differ in their opcode bits. *)
Theorem C1_no_opcode_collisions :
  NoDup (map opcodeBits
           (filter (fun i => negb (includes "2" (opcodeBits i))) instr))
  /\ (forall n m a b,
        n <> m -> nth_error instr n = Some a -> nth_error instr m = Some b ->
        includes "2" (opcodeBits a) = false ->
        includes "2" (opcodeBits b) = false ->
        opcodeBits a <> opcodeBits b).
Proof.
  assert (NoDup (map opcodeBits
                   (filter (fun i => negb (includes "2" (opcodeBits i))) instr)))
    as H by (apply noDupStrings_sound; vm_compute; reflexivity).
  split; [exact H|].
  intros n m a b Hne Ha Hb Hwa Hwb.
  apply (NoDup_map_filter_nth _ _ _ H n m a b Hne Ha Hb).
  - now rewrite Hwa.
  - now rewrite Hwb.
Qed.

(** The records [add] and [addi1], first and second of the table. *)
Lemma C1_no_opcode_collisions_witness : "00000000" <> "10000000".
Proof.
  apply (proj2 C1_no_opcode_collisions 0 1
           {| opcodeBits := "00000000"; nameStartIndex := Int 5;
              nameEndIndex := Int 7; name := "add" |}
           {| opcodeBits := "10000000"; nameStartIndex := Int 5;
              nameEndIndex := Int 7; name := "addi1" |});
    (discriminate || reflexivity).
Defined.

(** C2.  A clone made by [immediateModeClone] keeps bits 2-7 of the base
    record (indeed everything from bit 2 on), carries the pattern of its
    mode in bits 0-1 (10 for the first argument, 01 for the second, 11 for
    both), is named by the base mnemonic followed by the tag of the mode,
    and keeps both name indices. *)
Theorem C2_clone_shape (i : Instruction) (mode : ImmediateMode) :
  slice (opcodeBits (immediateModeClone i mode)) 2 8 = slice (opcodeBits i) 2 8
  /\ sliceFrom (opcodeBits (immediateModeClone i mode)) 2
     = sliceFrom (opcodeBits i) 2
  /\ slice (opcodeBits (immediateModeClone i mode)) 0 2
     = match mode with
       | ARG1_IMMEDIATE => "10"
       | ARG2_IMMEDIATE => "01"
       | BOTH_ARGS_IMMEDIATE => "11"
       end
  /\ name (immediateModeClone i mode)
     = name i ++ match mode with
                 | ARG1_IMMEDIATE => "i1"
                 | ARG2_IMMEDIATE => "i2"
                 | BOTH_ARGS_IMMEDIATE => "i12"
                 end
  /\ nameStartIndex (immediateModeClone i mode) = nameStartIndex i
  /\ nameEndIndex (immediateModeClone i mode) = nameEndIndex i.
Proof.
  rewrite immediateModeClone_opcodeBits.
  repeat split; destruct mode; reflexivity.
Qed.

(** C3.  The policy of [getInstructionImmediateModes]: no mode for [read]
    and [pop]; the first-argument mode alone for [not], [write] and [push];
    all three modes for every other mnemonic.  A record without wildcard
    expands to itself followed by one clone per mode of its policy, so a
    record named [not] expands to exactly [not] and [noti1]. *)
Theorem C3_immediate_mode_policy :
  (forall i, name i = "read" \/ name i = "pop" ->
             getInstructionImmediateModes i = [])
  /\ (forall i, name i = "not" \/ name i = "write" \/ name i = "push" ->
                getInstructionImmediateModes i = [ARG1_IMMEDIATE])
  /\ (forall i, name i <> "read" -> name i <> "pop" -> name i <> "not" ->
                name i <> "write" -> name i <> "push" ->
                getInstructionImmediateModes i
                = [ARG1_IMMEDIATE; ARG2_IMMEDIATE; BOTH_ARGS_IMMEDIATE])
  /\ (forall i, includes "2" (opcodeBits i) = false ->
                addImmediateModeClones i
                = i :: map (immediateModeClone i) (getInstructionImmediateModes i))
  /\ (forall i, includes "2" (opcodeBits i) = false -> name i = "not" ->
                map name (addImmediateModeClones i) = ["not"; "noti1"])
  /\ map (fun i => (opcodeBits i, name i)) (addImmediateModeClones notRecord)
     = [("00000100", "not"); ("10000100", "noti1")].
Proof.
  split; [|split; [|split; [|split; [|split]]]].
  - intros i [H | H]; unfold getInstructionImmediateModes; now rewrite H.
  - intros i [H | [H | H]]; unfold getInstructionImmediateModes; now rewrite H.
  - intros i H1 H2 H3 H4 H5. unfold getInstructionImmediateModes.
    apply String.eqb_neq in H1, H2, H3, H4, H5.
    now rewrite H1, H2, H3, H4, H5.
  - exact addImmediateModeClones_concrete.
  - intros i Hw Hn. rewrite addImmediateModeClones_concrete by exact Hw.
    unfold getInstructionImmediateModes. rewrite Hn.
    cbn [String.eqb Ascii.eqb Bool.eqb map immediateModeClone name modeTag].
    now rewrite Hn.
  - reflexivity.
Qed.

(** The policy at the record [not] of the specification's example. *)
Lemma C3_immediate_mode_policy_witness :
  map name (addImmediateModeClones notRecord) = ["not"; "noti1"].
Proof.
  apply (proj1 (proj2 (proj2 (proj2 (proj2 C3_immediate_mode_policy)))) notRecord);
    reflexivity.
Defined.

(** C4, as stated, fails, in two ways.  The filter of line 476 also applies
    to wildcard rows: the mask row [2122222211ARGi2] is a row of its table
    and carries a wildcard, yet no record is left after the filter and the
    rule table is empty.  And a row is written back from its parsed
    fields: the mask row [22122222x7COND], whose ninth character is no
    digit, is in the rule table as [22122222NaN7COND], not unchanged. *)
Lemma C4_tag_named_mask_dropped :
  (rowsOf tableWithTagNamedMask = ["2122222211ARGi2"]
   /\ wellFormed (deserializeInstructionFromRules "2122222211ARGi2") = true
   /\ includes "2" (opcodeBits (deserializeInstructionFromRules "2122222211ARGi2"))
      = true
   /\ expandTable tableWithTagNamedMask = []
   /\ rulesContentOf tableWithTagNamedMask = "")
  /\ (rowsOf tableWithBadIndexMask = ["22122222x7COND"]
      /\ includes "2" (opcodeBits (deserializeInstructionFromRules "22122222x7COND"))
         = true
      /\ isImmediateModeName (name (deserializeInstructionFromRules "22122222x7COND"))
         = false
      /\ rulesContentOf tableWithBadIndexMask = "22122222NaN7COND"
      /\ ~ In "22122222x7COND" (split LF (rulesContentOf tableWithBadIndexMask))).
Proof.
  split; repeat split; try reflexivity.
  vm_compute. intuition discriminate.
Qed.

(** C4, amended.  A row whose opcode bits contain the wildcard and whose
    mnemonic does not end in [i1], [i2] or [i12] passes through: its record
    is left as it is by the lowercasing step, is expanded to itself alone,
    is a record of the expanded table and is written as one line of the
    rule table, and is not among the records handed to the assembly
    serializer.  That line is the text of the row, unchanged, exactly when
    the ninth and the tenth character of the row are digits (otherwise
    [NaN] is written for the index); so a row with two digits there is
    itself a line of the rule table. *)
Theorem C4_wildcard_passthrough (input row : string) :
  In row (rowsOf input) ->
  includes "2" (opcodeBits (deserializeInstructionFromRules row)) = true ->
  isImmediateModeName (name (deserializeInstructionFromRules row)) = false ->
  lowercaseName (deserializeInstructionFromRules row)
  = deserializeInstructionFromRules row
  /\ addImmediateModeClones (deserializeInstructionFromRules row)
     = [deserializeInstructionFromRules row]
  /\ In (deserializeInstructionFromRules row) (expandTable input)
  /\ In (serializeInstructionToRules (deserializeInstructionFromRules row))
        (map serializeInstructionToRules (expandTable input))
  /\ (serializeInstructionToRules (deserializeInstructionFromRules row) = row
      <-> isIndexDigit (nameStartIndex (deserializeInstructionFromRules row))
          = true
          /\ isIndexDigit (nameEndIndex (deserializeInstructionFromRules row))
             = true)
  /\ (isIndexDigit (nameStartIndex (deserializeInstructionFromRules row)) = true ->
      isIndexDigit (nameEndIndex (deserializeInstructionFromRules row)) = true ->
      In row (map serializeInstructionToRules (expandTable input)))
  /\ ~ In (deserializeInstructionFromRules row) (asmInstructions input).
Proof.
  intros Hrow Hw Hn.
  pose proof (serialize_deserialize_iff row) as Hiff.
  set (r := deserializeInstructionFromRules row) in *.
  assert (lowercaseName r = r) as Hl by now apply lowercaseName_wildcard.
  assert (addImmediateModeClones r = [r]) as Ha
    by (unfold addImmediateModeClones; now rewrite Hw).
  assert (In r (expandTable input)) as He.
  { unfold expandTable. apply in_flat_map. exists r. split.
    - rewrite <- Hl. unfold baseInstructions. apply in_map.
      unfold keptInstructions. apply filter_In. split.
      + apply In_readFileInstructions. now exists row.
      + now rewrite Hn.
    - rewrite Ha. now left. }
  split; [exact Hl|]. split; [exact Ha|]. split; [exact He|].
  split; [now apply in_map|]. split; [exact Hiff|]. split.
  - intros H1 H2. rewrite <- (proj2 Hiff (conj H1 H2)). now apply in_map.
  - unfold asmInstructions. intros H. apply filter_In in H as [_ H].
    fold r in H. rewrite Hw in H. discriminate H.
Qed.

(** The mask row [COND] of the embedded table. *)
Lemma C4_wildcard_passthrough_witness :
  In "2212222222COND" (map serializeInstructionToRules instr)
  /\ ~ In (deserializeInstructionFromRules "2212222222COND")
         (asmInstructions instructions).
Proof.
  pose proof (C4_wildcard_passthrough instructions "2212222222COND") as H.
  destruct H as (_ & _ & _ & _ & _ & H5 & H6).
  - vm_compute. left. reflexivity.
  - reflexivity.
  - reflexivity.
  - split; [apply H5; reflexivity | exact H6].
Defined.

(** C5, as stated, fails: the filter of line 476 tests the mnemonic as
    authored, before it is lowercased.  The well-formed row
    [0000000057LDI1] passes the filter and is lowercased to [ldi1]: a
    record whose mnemonic ends in a tag is handed to the expander and is
    expanded to four records.  In the rule table written from them every
    mnemonic ends in a tag, so running the chain again leaves no record at
    all. *)
Lemma C5_upper_case_tag_not_idempotent :
  forallb wellFormed (readFileInstructions tableWithUpperCaseTag) = true
  /\ map name (baseInstructions tableWithUpperCaseTag) = ["ldi1"]
  /\ isImmediateModeName "ldi1" = true
  /\ map name (expandTable tableWithUpperCaseTag)
     = ["ldi1"; "ldi1i1"; "ldi1i2"; "ldi1i12"]
  /\ expandTable (rulesContentOf tableWithUpperCaseTag) = [].
Proof. repeat split; reflexivity. Qed.

(** C5, amended.  Take a table whose rows are well formed and in which no
    base mnemonic, once lowercased, ends in [i1], [i2] or [i12] (the
    embedded table is such a table), and run the chain again on the rule
    table it produced.  Then the records handed to the expander are the
    base records of the first run (last one first): of the records of the
    expanded table, exactly those whose mnemonic ends in a tag are left
    out before the expander runs, none that is handed over has a
    tag-suffixed mnemonic, and the second run yields the same set of
    records as the first. *)
Theorem C5_reprocessing_expanded_table (input : string) :
  forallb wellFormed (readFileInstructions input) = true ->
  forallb (fun i => negb (isImmediateModeName (name i))) (baseInstructions input)
  = true ->
  baseInstructions (rulesContentOf input) = rev (baseInstructions input)
  /\ (forall r, In r (expandTable input) ->
                (In r (baseInstructions (rulesContentOf input))
                 <-> isImmediateModeName (name r) = false))
  /\ (forall r, In r (baseInstructions (rulesContentOf input)) ->
                isImmediateModeName (name r) = false)
  /\ keptInstructions (rulesContentOf input) = rev (baseInstructions input)
  /\ (forall r, In r (expandTable (rulesContentOf input))
                <-> In r (expandTable input)).
Proof.
  intros Hwf Hbase.
  assert (baseInstructions (rulesContentOf input) = rev (baseInstructions input))
    as Hre.
  { unfold baseInstructions at 1.
    rewrite keptInstructions_rulesContentOf by assumption.
    now rewrite map_rev, map_lowercaseName_base. }
  assert (forall b, In b (baseInstructions input) ->
                    isImmediateModeName (name b) = false) as Hb.
  { intros b Hin. rewrite forallb_forall in Hbase.
    now apply negb_true_iff, Hbase. }
  split; [exact Hre|]. split; [|split; [|split]].
  - intros r Hr. rewrite Hre, <- in_rev. split; [apply Hb|].
    intros Hn. unfold expandTable in Hr.
    apply in_flat_map in Hr as (b & Hin & Hr).
    unfold addImmediateModeClones in Hr.
    destruct (includes "2" (opcodeBits b)).
    + destruct Hr as [<- | []]. exact Hin.
    + destruct Hr as [<- | Hr]; [exact Hin|].
      apply in_map_iff in Hr as (m & <- & _).
      rewrite isImmediateModeName_clone in Hn. discriminate Hn.
  - intros r Hr. rewrite Hre in Hr. apply in_rev in Hr. now apply Hb.
  - now apply keptInstructions_rulesContentOf.
  - intros r. rewrite expandTable_rulesContentOf by assumption.
    unfold expandTable. rewrite !in_flat_map.
    split; intros (b & Hin & Hr); exists b; (split; [|exact Hr]).
    + apply in_rev. exact Hin.
    + apply in_rev in Hin. exact Hin.
Qed.

(** The embedded table. *)
Lemma C5_reprocessing_expanded_table_witness :
  baseInstructions instructionRulesContent = rev (baseInstructions instructions)
  /\ keptInstructions instructionRulesContent = rev (baseInstructions instructions)
  /\ (In notRecord (expandTable instructionRulesContent) <-> In notRecord instr).
Proof.
  destruct (C5_reprocessing_expanded_table instructions) as (H1 & _ & _ & H4 & H5);
    try reflexivity.
  split; [exact H1 | split; [exact H4 | exact (H5 notRecord)]].
Defined.

(** C6, as stated, fails: the parser reverses the rows.  The text made of
    the well-formed rows [0000000157sub] and [0000000057add] comes back with
    [add] first. *)
Lemma C6_two_rows_come_back_reversed :
  forallb (fun l => wellFormed (deserializeInstructionFromRules l))
          (split LF twoRowTable) = true
  /\ stringifyFileInstructionsForFile (readFileInstructions twoRowTable)
     = join NL ["0000000057add"; "0000000157sub"]
  /\ stringifyFileInstructionsForFile (readFileInstructions twoRowTable)
     <> twoRowTable.
Proof. repeat split; try reflexivity. discriminate. Qed.

(** C6, amended.  For a text made of well-formed rows (eight characters
    over 0, 1, 2, two digits, a mnemonic), parsing it with
    [readFileInstructions] and serializing the result with
    [stringifyFileInstructionsForFile] reproduces every row exactly, in
    reversed row order; done twice, it reproduces the text. *)
Theorem C6_round_trip_reverses_rows (rows : list string) :
  forallb (fun l => wellFormed (deserializeInstructionFromRules l)) rows = true ->
  stringifyFileInstructionsForFile (readFileInstructions (join NL rows))
  = join NL (rev rows)
  /\ stringifyFileInstructionsForFile
       (readFileInstructions
          (stringifyFileInstructionsForFile
             (readFileInstructions (join NL rows))))
     = join NL rows.
Proof.
  intros H. destruct (rows_of_wellFormed rows H) as [E W].
  set (rs := map deserializeInstructionFromRules rows) in *.
  assert (join NL rows = stringifyFileInstructionsForFile rs) as T
    by (unfold stringifyFileInstructionsForFile; now rewrite E).
  assert (forallb wellFormed (rev rs) = true) as Wr.
  { apply forallb_forall. intros r Hr. apply in_rev in Hr.
    rewrite forallb_forall in W. now apply W. }
  rewrite T, readFileInstructions_stringify by exact W.
  rewrite readFileInstructions_stringify by exact Wr.
  rewrite rev_involutive. split; [|reflexivity].
  unfold stringifyFileInstructionsForFile. now rewrite map_rev, E.
Qed.

(** The two-row text. *)
Lemma C6_round_trip_reverses_rows_witness :
  stringifyFileInstructionsForFile (readFileInstructions twoRowTable)
  = join NL ["0000000057add"; "0000000157sub"]
  /\ stringifyFileInstructionsForFile
       (readFileInstructions
          (stringifyFileInstructionsForFile (readFileInstructions twoRowTable)))
     = twoRowTable.
Proof.
  apply (C6_round_trip_reverses_rows ["0000000157sub"; "0000000057add"]).
  reflexivity.
Defined.

(** C7.  [serializeInstructionToAsm] throws exactly on a record whose opcode
    bits contain the wildcard; and on every table the assembly serializer
    is only handed records without one, so the lines are produced and the
    run returns. *)
Theorem C7_wildcard_guard_unreachable :
  (forall i, (exists msg, serializeInstructionToAsm i = Thrown msg)
             <-> includes "2" (opcodeBits i) = true)
  /\ (forall input i, In i (asmInstructions input) ->
                      includes "2" (opcodeBits i) = false)
  /\ (forall input, exists lines, asmLinesOf input = Returned lines)
  /\ (forall input, snd (run input) = Returned tt).
Proof.
  split; [exact serializeInstructionToAsm_thrown|].
  split; [|split].
  - intros input i Hi. unfold asmInstructions in Hi.
    apply filter_In in Hi as [_ Hi]. now apply negb_true_iff in Hi.
  - intros input. eexists. apply asmLinesOf_returned.
  - intros input. now rewrite run_returned.
Qed.

(** The first record of the table expanded from the row [0000000007add]. *)
Lemma C7_wildcard_guard_unreachable_witness :
  includes "2" (opcodeBits (deserializeInstructionFromRules addTable)) = false
  /\ ~ (exists msg,
          serializeInstructionToAsm (deserializeInstructionFromRules addTable)
          = Thrown msg).
Proof.
  assert (includes "2" (opcodeBits (deserializeInstructionFromRules addTable))
          = false) as H.
  { apply (proj1 (proj2 C7_wildcard_guard_unreachable) addTable).
    vm_compute. left. reflexivity. }
  split; [exact H|].
  intros E. apply (proj1 C7_wildcard_guard_unreachable) in E.
  rewrite H in E. discriminate E.
Defined.

(** C8.  For a record of the data model (eight characters over 0, 1, 2)
    without wildcard, [serializeInstructionToAsm] returns the mnemonic, a
    space and the decimal numeral of the opcode bits read in base 2; the
    table made of the row [0000000007add] gives the assembly lines
    [add 0], [addi1 128], [addi2 64], [addi12 192]. *)
Theorem C8_asm_line_value :
  (forall i, String.length (opcodeBits i) = 8 ->
             allChars isTrit (opcodeBits i) = true ->
             includes "2" (opcodeBits i) = false ->
             serializeInstructionToAsm i
             = Returned (name i ++ " " ++ decimal (binaryValue (opcodeBits i))))
  /\ asmLinesOf addTable
     = Returned ["add 0"; "addi1 128"; "addi2 64"; "addi12 192"].
Proof.
  split; [|reflexivity].
  intros i Hlen Htrit Hw. unfold serializeInstructionToAsm. rewrite Hw.
  rewrite parseInt_binary.
  - now rewrite numberToString_of_N.
  - intros E. rewrite E in Hlen. discriminate.
  - now apply binary_of_trits.
Qed.

(** The assembly line of the record [not]: bits 00000100 are 4. *)
Lemma C8_asm_line_value_witness :
  serializeInstructionToAsm notRecord = Returned "not 4".
Proof.
  apply (proj1 C8_asm_line_value notRecord); reflexivity.
Defined.

(** C9, as stated, fails: the parser has no length check.  The row [0000]
    is parsed into a record with [NaN] indices and an empty mnemonic, and
    the run returns. *)
Lemma C9_short_row_is_parsed :
  String.length shortRow < 10
  /\ rowsOf shortRow = [shortRow]
  /\ readFileInstructions shortRow
     = [{| opcodeBits := "0000"; nameStartIndex := NaN;
           nameEndIndex := NaN; name := "" |}]
  /\ snd (run shortRow) = Returned tt.
Proof.
  split; [vm_compute; lia|]. repeat split; reflexivity.
Qed.

(** C9, amended.  A non-blank line shorter than 10 characters is not
    rejected: the parser returns one record, made of the first (at most 8)
    characters as opcode bits, what [parseInt] reads from the ninth
    character as start index, [NaN] as end index and the empty mnemonic;
    and the run on that line returns. *)
Theorem C9_short_row_record (line : string) :
  includes LF line = false ->
  trim line <> "" ->
  String.length (trim line) < 10 ->
  readFileInstructions line
  = [{| opcodeBits := slice (trim line) 0 8;
        nameStartIndex := parseInt (slice (trim line) 8 9) 10;
        nameEndIndex := NaN;
        name := "" |}]
  /\ snd (run line) = Returned tt.
Proof.
  intros Hlf Hne Hlen. split; [|now rewrite run_returned].
  unfold readFileInstructions, rowsOf.
  rewrite split_no_separator by exact Hlf. cbn [map filter].
  destruct (trim line) as [|c t] eqn:E; [congruence|]. cbn [nonEmpty map rev app].
  unfold deserializeInstructionFromRules, slice, sliceFrom.
  rewrite (drop_all 9), (drop_all 10) by lia. reflexivity.
Qed.

(** The row [0000]. *)
Lemma C9_short_row_record_witness :
  readFileInstructions shortRow
  = [{| opcodeBits := slice (trim shortRow) 0 8;
        nameStartIndex := parseInt (slice (trim shortRow) 8 9) 10;
        nameEndIndex := NaN;
        name := "" |}]
  /\ snd (run shortRow) = Returned tt.
Proof.
  apply (C9_short_row_record shortRow).
  - reflexivity.
  - discriminate.
  - vm_compute; lia.
Defined.

(** C10.  The filter of line 476 looks at the mnemonic only.  In the table
    made of the rows [0010100057jmpi1] and [0000000057add], the first row
    is a well-formed base row without wildcard whose mnemonic ends in [i1];
    it is dropped before expansion, and neither the rule table nor the
    assembly table has a line for it. *)
Theorem C10_tag_named_base_row_dropped :
  exists input row,
    In row (rowsOf input)
    /\ wellFormed (deserializeInstructionFromRules row) = true
    /\ includes "2" (opcodeBits (deserializeInstructionFromRules row)) = false
    /\ name (deserializeInstructionFromRules row) = "jmpi1"
    /\ isImmediateModeName (name (deserializeInstructionFromRules row)) = true
    /\ ~ In (deserializeInstructionFromRules row) (keptInstructions input)
    /\ map serializeInstructionToRules (expandTable input)
       = ["0000000057add"; "1000000057addi1"; "0100000057addi2";
          "1100000057addi12"]
    /\ ~ In row (split LF (rulesContentOf input))
    /\ asmContentOf input
       = Returned (join NL ["add 0"; "addi1 128"; "addi2 64"; "addi12 192"]
                   ++ asmAppendix).
Proof.
  exists tableWithTagNamedBase, "0010100057jmpi1".
  repeat split; try reflexivity.
  - left; reflexivity.
  - intros H. apply filter_In in H as [_ H]. discriminate H.
  - vm_compute. intuition discriminate.
Qed.

(* ================================================================= *)
(** ** Further properties of the code *)

(** *** The parser of one row and the rule-row serializer *)

(** X1.  The record parsed from any line has at most 8 characters of opcode
    bits (exactly 8 once the line has 8), indices that are each either
    [NaN] or one digit 0-9, never a longer or a negative number, and as
    mnemonic whatever follows the tenth character. *)
Theorem X1_parsed_record_shape (line : string) :
  String.length (opcodeBits (deserializeInstructionFromRules line))
  = Nat.min 8 (String.length line)
  /\ (nameStartIndex (deserializeInstructionFromRules line) = NaN
      \/ isIndexDigit (nameStartIndex (deserializeInstructionFromRules line))
         = true)
  /\ (nameEndIndex (deserializeInstructionFromRules line) = NaN
      \/ isIndexDigit (nameEndIndex (deserializeInstructionFromRules line))
         = true)
  /\ String.length (name (deserializeInstructionFromRules line))
     = String.length line - 10.
Proof.
  unfold deserializeInstructionFromRules, slice, sliceFrom.
  cbn [opcodeBits nameStartIndex nameEndIndex name Nat.sub].
  change (drop 0 line) with line.
  repeat split.
  - apply length_take.
  - apply parseInt_one_char.
  - apply parseInt_one_char.
  - apply length_drop.
Qed.

(** X2.  Serializing a well-formed record to a rule row and parsing the row
    gives the record back. *)
Theorem X2_record_round_trip (r : Instruction) :
  wellFormed r = true ->
  deserializeInstructionFromRules (serializeInstructionToRules r) = r.
Proof. exact (deserialize_serialize r). Qed.

(** The record [not] of the specification's example. *)
Lemma X2_record_round_trip_witness :
  deserializeInstructionFromRules (serializeInstructionToRules notRecord)
  = notRecord.
Proof. apply (X2_record_round_trip notRecord). reflexivity. Defined.

(** X3.  Parsing a line and serializing the record reproduces the line
    exactly when its ninth and tenth characters are digits; otherwise the
    text [NaN] takes the place of the missing digit and the row comes back
    longer. *)
Theorem X3_row_round_trip_iff (line : string) :
  serializeInstructionToRules (deserializeInstructionFromRules line) = line
  <-> isIndexDigit (nameStartIndex (deserializeInstructionFromRules line)) = true
      /\ isIndexDigit (nameEndIndex (deserializeInstructionFromRules line)) = true.
Proof. exact (serialize_deserialize_iff line). Qed.

(** *** The expander *)

Section FamilyFacts.

Lemma includes_drop (c : ascii) (n : nat) (s : string) :
  includes c s = false -> includes c (drop n s) = false.
Proof.
  revert s; induction n as [|n IH]; intros [|d s]; cbn [drop includes];
    intros H; try assumption.
  apply orb_false_elim in H as [_ H]. now apply IH.
Qed.

Lemma immediateModeClone_no_wildcard (i : Instruction) (mode : ImmediateMode) :
  includes "2" (opcodeBits i) = false ->
  includes "2" (opcodeBits (immediateModeClone i mode)) = false.
Proof.
  intros H. rewrite immediateModeClone_opcodeBits, !includes_append.
  rewrite includes_drop by exact H. now destruct mode.
Qed.

(** The records a record expands to carry a wildcard exactly when it does. *)
Lemma family_wildcard (b x : Instruction) :
  In x (addImmediateModeClones b) ->
  includes "2" (opcodeBits x) = includes "2" (opcodeBits b).
Proof.
  unfold addImmediateModeClones.
  destruct (includes "2" (opcodeBits b)) eqn:E.
  - intros [<- | []]. exact E.
  - intros [<- | H]; [exact E|].
    apply in_map_iff in H as (m & <- & _).
    now apply immediateModeClone_no_wildcard.
Qed.

Lemma filter_family (b : Instruction) :
  filter (fun i => negb (includes "2" (opcodeBits i))) (addImmediateModeClones b)
  = if includes "2" (opcodeBits b) then [] else addImmediateModeClones b.
Proof.
  destruct (includes "2" (opcodeBits b)) eqn:E.
  - unfold addImmediateModeClones. rewrite E. cbn [filter]. now rewrite E.
  - apply forallb_filter_id, forallb_forall. intros x Hx.
    now rewrite (family_wildcard b x Hx), E.
Qed.

Lemma family_bits_from_2 (b x : Instruction) :
  In x (addImmediateModeClones b) ->
  drop 2 (opcodeBits x) = drop 2 (opcodeBits b).
Proof.
  unfold addImmediateModeClones.
  destruct (includes "2" (opcodeBits b)).
  - now intros [<- | []].
  - intros [<- | H]; [reflexivity|].
    apply in_map_iff in H as (m & <- & _).
    rewrite immediateModeClone_opcodeBits. now destruct m.
Qed.

Lemma family_NoDup (b : Instruction) :
  take 2 (opcodeBits b) = "00" ->
  NoDup (map opcodeBits (addImmediateModeClones b)).
Proof.
  intros H. unfold addImmediateModeClones.
  destruct (includes "2" (opcodeBits b)).
  - repeat constructor. intros [].
  - rewrite modesToAdd_all, map_cons, map_map.
    assert (opcodeBits b = "00" ++ drop 2 (opcodeBits b)) as E
      by (now rewrite <- H, take_drop).
    unfold getInstructionImmediateModes.
    repeat match goal with
           | |- context [String.eqb ?a ?b] => destruct (String.eqb a b)
           end;
      cbn [map modes]; rewrite ?immediateModeClone_opcodeBits;
      rewrite E at 1; cbn [modeToBits arrayGet nth append];
      repeat constructor; cbn [In]; intuition discriminate.
Qed.

Lemma toLowerCase_append (a b : string) :
  toLowerCase (a ++ b) = toLowerCase a ++ toLowerCase b.
Proof.
  induction a as [|c a IH]; cbn [append toLowerCase]; [reflexivity|].
  now rewrite IH.
Qed.

End FamilyFacts.

(** X4.  A clone has as many opcode bits as its base record, except that a
    base with fewer than two characters gives a clone of exactly two: the
    two assignments [bits[0] = ...], [bits[1] = ...] extend the array. *)
Theorem X4_clone_length (i : Instruction) (mode : ImmediateMode) :
  String.length (opcodeBits (immediateModeClone i mode))
  = Nat.max 2 (String.length (opcodeBits i)).
Proof.
  rewrite immediateModeClone_opcodeBits, !length_append, length_drop.
  destruct mode; cbn [modeToBits arrayGet nth String.length]; lia.
Qed.

(** X5.  Expansion never brings in a wildcard and never removes one: every
    record a record expands to contains the character 2 in its opcode bits
    exactly when the record does.  So dropping the wildcard records after
    the expansion, as line 489 does, is the same as expanding only the base
    records without wildcard. *)
Theorem X5_wildcard_filter_commutes :
  (forall b x, In x (addImmediateModeClones b) ->
               includes "2" (opcodeBits x) = includes "2" (opcodeBits b))
  /\ (forall input,
        asmInstructions input
        = flat_map addImmediateModeClones
            (filter (fun i => negb (includes "2" (opcodeBits i)))
                    (baseInstructions input))).
Proof.
  split; [exact family_wildcard|].
  intros input. unfold asmInstructions, expandTable.
  induction (baseInstructions input) as [|b bs IH]; [reflexivity|].
  cbn [flat_map filter]. rewrite filter_app, filter_family, IH.
  now destruct (includes "2" (opcodeBits b)).
Qed.

(** The clone [noti1] of the record [not]: no wildcard in either. *)
Lemma X5_wildcard_filter_commutes_witness :
  includes "2" (opcodeBits (immediateModeClone notRecord ARG1_IMMEDIATE))
  = includes "2" (opcodeBits notRecord).
Proof.
  apply (proj1 X5_wildcard_filter_commutes notRecord). right. left. reflexivity.
Defined.

(** X6.  When every base record has 00 in bits 0-1 and no two base records
    agree from bit 2 on, the expanded records have pairwise different
    opcode bits: expansion cannot make two opcodes collide. *)
Theorem X6_expansion_collision_free (bs : list Instruction) :
  (forall b, In b bs -> take 2 (opcodeBits b) = "00") ->
  NoDup (map (fun b => drop 2 (opcodeBits b)) bs) ->
  NoDup (map opcodeBits (flat_map addImmediateModeClones bs)).
Proof.
  induction bs as [|b bs IH]; intros H00 Hnd; [constructor|].
  cbn [flat_map map] in *. rewrite map_app.
  apply NoDup_cons_iff in Hnd as [Hb Hnd].
  apply NoDup_app.
  - apply family_NoDup, H00. now left.
  - apply IH; [|exact Hnd]. intros x Hx. apply H00. now right.
  - intros bits Hin1 Hin2. apply Hb.
    apply in_map_iff in Hin1 as (x & <- & Hx).
    apply in_map_iff in Hin2 as (y & Ey & Hy).
    apply in_flat_map in Hy as (b' & Hb' & Hy).
    apply in_map_iff. exists b'. split; [|exact Hb'].
    rewrite <- (family_bits_from_2 b' y Hy), Ey.
    apply (family_bits_from_2 b x Hx).
Qed.

(** The rows [add], [sub] and [not]. *)
Lemma X6_expansion_collision_free_witness :
  NoDup (map opcodeBits
           (flat_map addImmediateModeClones
              (map deserializeInstructionFromRules
                 ["0000000057add"; "0000000157sub"; "0000010057not"]))).
Proof.
  apply X6_expansion_collision_free.
  - intros b [<- | [<- | [<- | []]]]; reflexivity.
  - apply noDupStrings_sound. reflexivity.
Defined.

(** X7.  Every record handed to the assembly serializer has a mnemonic in
    lower case: the base mnemonics are lowercased on line 480 and the tags
    appended to them are lower case themselves. *)
Theorem X7_asm_mnemonics_lower_case (input : string) (i : Instruction) :
  In i (asmInstructions input) -> toLowerCase (name i) = name i.
Proof.
  intros Hi. unfold asmInstructions in Hi. apply filter_In in Hi as [Hi Hw].
  apply negb_true_iff in Hw.
  unfold expandTable in Hi. apply in_flat_map in Hi as (b & Hb & Hi).
  rewrite (family_wildcard b i Hi) in Hw.
  unfold baseInstructions in Hb. apply in_map_iff in Hb as (k & <- & _).
  assert (toLowerCase (name (lowercaseName k)) = name (lowercaseName k)) as Hl.
  { unfold lowercaseName in *. cbn [opcodeBits name] in *. rewrite Hw.
    apply toLowerCase_idempotent. }
  unfold addImmediateModeClones in Hi. rewrite Hw in Hi.
  destruct Hi as [<- | Hi]; [exact Hl|].
  apply in_map_iff in Hi as (m & <- & _).
  unfold immediateModeClone at 1 2. cbn [name].
  rewrite toLowerCase_append, Hl. now destruct m.
Qed.

(** The record [add] that the row [0000000057ADD] of the earlier table
    becomes. *)
Lemma X7_asm_mnemonics_lower_case_witness :
  toLowerCase "add" = "add".
Proof.
  apply (X7_asm_mnemonics_lower_case Earlier.instructions
           {| opcodeBits := "00000000"; nameStartIndex := Int 5;
              nameEndIndex := Int 7; name := "add" |}).
  vm_compute. left. reflexivity.
Defined.

(** *** The assembly serializer *)

Section AsmFacts.

Lemma binaryValue_bound (s : string) :
  (binaryValue s < 2 ^ N.of_nat (String.length s))%N.
Proof.
  induction s as [|c s IH]; cbn [binaryValue String.length]; [reflexivity|].
  rewrite Nat2N.inj_succ, N.pow_succ_r'.
  destruct (Ascii.eqb c "1"); lia.
Qed.

Lemma binaryValue_injective (s t : string) :
  allChars (fun c => Ascii.eqb c "0" || Ascii.eqb c "1") s = true ->
  allChars (fun c => Ascii.eqb c "0" || Ascii.eqb c "1") t = true ->
  String.length s = String.length t ->
  binaryValue s = binaryValue t -> s = t.
Proof.
  revert t; induction s as [|c s IH]; intros [|d t] Hs Ht Hlen Hv;
    try discriminate Hlen; [reflexivity|].
  cbn [allChars String.length binaryValue] in *.
  apply andb_prop in Hs as [Hc Hs]. apply andb_prop in Ht as [Hd Ht].
  injection Hlen as Hlen. rewrite Hlen in Hv.
  pose proof (binaryValue_bound s) as Bs. rewrite Hlen in Bs.
  pose proof (binaryValue_bound t) as Bt.
  assert (c = "0"%char \/ c = "1"%char) as Ec
    by (apply orb_prop in Hc as [E | E]; apply Ascii.eqb_eq in E; auto).
  assert (d = "0"%char \/ d = "1"%char) as Ed
    by (apply orb_prop in Hd as [E | E]; apply Ascii.eqb_eq in E; auto).
  destruct Ec as [-> | ->], Ed as [-> | ->];
    change (Ascii.eqb "0" "1") with false in Hv;
    change (Ascii.eqb "1" "1") with true in Hv; cbv iota in Hv;
    try lia; f_equal; apply IH; try assumption; lia.
Qed.

End AsmFacts.

(** X8.  For records of the data model without wildcard, the number written
    in the assembly line is below 256, and two records get the same number
    only if they have the same opcode bits: the assembly table repeats a
    value only where the rule table repeats an opcode. *)
Theorem X8_asm_values (i j : Instruction) :
  wellFormed i = true -> includes "2" (opcodeBits i) = false ->
  wellFormed j = true -> includes "2" (opcodeBits j) = false ->
  (exists v, (v < 256)%N
             /\ serializeInstructionToAsm i
                = Returned (name i ++ " " ++ decimal v))
  /\ (parseInt (opcodeBits i) 2 = parseInt (opcodeBits j) 2 ->
      opcodeBits i = opcodeBits j).
Proof.
  intros Wi Hi Wj Hj.
  apply wellFormed_inv in Wi as (Li & Ti & _).
  apply wellFormed_inv in Wj as (Lj & Tj & _).
  pose proof (binary_of_trits _ Ti Hi) as Bi.
  pose proof (binary_of_trits _ Tj Hj) as Bj.
  assert (opcodeBits i <> "") as Ni by (intros E; rewrite E in Li; discriminate).
  assert (opcodeBits j <> "") as Nj by (intros E; rewrite E in Lj; discriminate).
  split.
  - exists (binaryValue (opcodeBits i)). split.
    + pose proof (binaryValue_bound (opcodeBits i)) as B. rewrite Li in B.
      exact B.
    + unfold serializeInstructionToAsm. rewrite Hi.
      now rewrite parseInt_binary, numberToString_of_N.
  - rewrite !parseInt_binary by assumption. intros E.
    injection E as E. apply N2Z.inj in E.
    apply binaryValue_injective; try assumption. congruence.
Qed.

(** The records [not] and [noti1]. *)
Lemma X8_asm_values_witness :
  (exists v, (v < 256)%N
             /\ serializeInstructionToAsm notRecord
                = Returned ("not" ++ " " ++ decimal v))
  /\ (parseInt "00000100" 2 = parseInt "10000100" 2 ->
      "00000100" = "10000100").
Proof.
  apply (X8_asm_values notRecord (immediateModeClone notRecord ARG1_IMMEDIATE));
    reflexivity.
Defined.

(** *** The parser of a table *)

Section TableFacts.

Lemma split_not_nil (s : string) : split LF s <> [].
Proof.
  destruct s as [|c s]; cbn [split]; [discriminate|].
  destruct (Ascii.eqb c LF); [discriminate|].
  destruct (split LF s); discriminate.
Qed.

Lemma split_append_line (a b : string) :
  split LF (a ++ String LF b) = (split LF a ++ split LF b)%list.
Proof.
  induction a as [|c a IH]; cbn [append split].
  - now rewrite Ascii.eqb_refl.
  - rewrite IH. destruct (Ascii.eqb c LF); [reflexivity|].
    pose proof (split_not_nil a) as N.
    destruct (split LF a) as [|h t]; [congruence | reflexivity].
Qed.

Lemma rowsOf_append_line (a b : string) :
  rowsOf (a ++ String LF b) = (rowsOf a ++ rowsOf b)%list.
Proof.
  unfold rowsOf. now rewrite split_append_line, map_app, filter_app.
Qed.

(** The lines of a text that got one more character at its end: the last
    line got it. *)
Lemma split_append_char (s : string) (w : ascii) :
  Ascii.eqb w LF = false ->
  exists init last,
    split LF s = (init ++ [last])%list
    /\ split LF (s ++ String w "")
       = (init ++ [(last ++ String w "")%string])%list.
Proof.
  intros Hw. induction s as [|c s (init & last & E1 & E2)].
  - exists [], "". cbn [append split]. now rewrite Hw.
  - cbn [append split]. rewrite E1, E2.
    destruct (Ascii.eqb c LF).
    + exists ("" :: init), last. split; reflexivity.
    + destruct init as [|h t].
      * exists [], (String c last). split; reflexivity.
      * exists (String c h :: t), last. split; reflexivity.
Qed.

Lemma trimEnd_append_space (s : string) (w : ascii) :
  isWhiteSpace w = true -> trimEnd (s ++ String w "") = trimEnd s.
Proof.
  intros Hw. induction s as [|c s IH]; cbn [append trimEnd].
  - now rewrite Hw.
  - now rewrite IH.
Qed.

Lemma trim_append_space (s : string) (w : ascii) :
  isWhiteSpace w = true -> trim (s ++ String w "") = trim s.
Proof.
  intros Hw. unfold trim. induction s as [|c s IH]; cbn [append trimStart].
  - now rewrite Hw.
  - destruct (isWhiteSpace c); [exact IH|].
    exact (trimEnd_append_space (String c s) w Hw).
Qed.

Lemma rowsOf_append_space (s : string) (w : ascii) :
  isWhiteSpace w = true -> Ascii.eqb w LF = false ->
  rowsOf (s ++ String w "") = rowsOf s.
Proof.
  intros Hw Hl. destruct (split_append_char s w Hl) as (init & last & E1 & E2).
  unfold rowsOf. rewrite E1, E2, !map_app, !filter_app. cbn [map].
  now rewrite trim_append_space.
Qed.

Lemma trimStart_blank (s : string) :
  allChars isWhiteSpace s = true -> trimStart s = "".
Proof.
  induction s as [|c s IH]; cbn [allChars trimStart]; [reflexivity|].
  intros H. apply andb_prop in H as [Hc Hs]. now rewrite Hc, IH.
Qed.

Lemma split_blank (s : string) :
  allChars isWhiteSpace s = true ->
  forall l, In l (split LF s) -> allChars isWhiteSpace l = true.
Proof.
  induction s as [|c s IH]; cbn [allChars split].
  - intros _ l [<- | []]. reflexivity.
  - intros H. apply andb_prop in H as [Hc Hs]. specialize (IH Hs).
    destruct (Ascii.eqb c LF).
    + intros l [<- | Hl]; [reflexivity | now apply IH].
    + destruct (split LF s) as [|h t].
      * intros l [<- | []]. cbn [allChars]. now rewrite Hc.
      * intros l [<- | Hl].
        -- cbn [allChars]. rewrite Hc. apply IH. now left.
        -- apply IH. now right.
Qed.

Lemma rowsOf_blank (s : string) :
  allChars isWhiteSpace s = true -> rowsOf s = [].
Proof.
  intros H. unfold rowsOf. pose proof (split_blank s H) as B.
  induction (split LF s) as [|l ls IH]; [reflexivity|].
  cbn [map filter]. unfold trim at 1.
  rewrite trimStart_blank by (apply B; now left). cbn [trimEnd nonEmpty].
  apply IH. intros x Hx. apply B. now right.
Qed.

End TableFacts.

(** X9.  The parser treats the lines of a table one by one: the records of
    a text followed by a line break and a second text are the records of
    the second text followed by those of the first (the parser reverses),
    and the same holds for the expanded table. *)
Theorem X9_tables_compose (a b : string) :
  readFileInstructions (a ++ NL ++ b)
  = (readFileInstructions b ++ readFileInstructions a)%list
  /\ expandTable (a ++ NL ++ b) = (expandTable b ++ expandTable a)%list.
Proof.
  assert (readFileInstructions (a ++ NL ++ b)
          = (readFileInstructions b ++ readFileInstructions a)%list) as E.
  { unfold readFileInstructions. change (NL ++ b) with (String LF b).
    now rewrite rowsOf_append_line, map_app, rev_app_distr. }
  split; [exact E|].
  unfold expandTable, baseInstructions, keptInstructions.
  now rewrite E, filter_app, map_app, flat_map_app.
Qed.

(** X10.  A table written with CR LF line breaks is parsed like the same
    lines written with LF: the carriage return left at the end of each line
    by [split] is removed by [trim]. *)
Theorem X10_crlf_line_breaks (lines : list string) :
  readFileInstructions (join CRLF lines) = readFileInstructions (join NL lines).
Proof.
  unfold readFileInstructions. do 2 f_equal. unfold join.
  induction lines as [|x t IH]; [reflexivity|].
  destruct t as [|y t]; [reflexivity|].
  change (String.concat CRLF (x :: y :: t))
    with (x ++ CRLF ++ String.concat CRLF (y :: t)).
  change (String.concat NL (x :: y :: t))
    with (x ++ NL ++ String.concat NL (y :: t)).
  change (x ++ CRLF ++ String.concat CRLF (y :: t))
    with (x ++ String CR (String LF (String.concat CRLF (y :: t)))).
  replace (x ++ String CR (String LF (String.concat CRLF (y :: t))))
    with ((x ++ String CR "") ++ String LF (String.concat CRLF (y :: t)))
    by (now rewrite append_assoc).
  change (NL ++ String.concat NL (y :: t))
    with (String LF (String.concat NL (y :: t))).
  rewrite !rowsOf_append_line, IH.
  now rewrite rowsOf_append_space by reflexivity.
Qed.

(** X11.  A table that holds nothing but white space (blank lines, an empty
    text) has no record: the rule table written for it is empty and the
    assembly table holds the fixed constants alone. *)
Theorem X11_blank_table (input : string) :
  allChars isWhiteSpace input = true ->
  readFileInstructions input = []
  /\ rulesContentOf input = ""
  /\ asmContentOf input = Returned asmAppendix.
Proof.
  intros H.
  assert (readFileInstructions input = []) as E
    by (unfold readFileInstructions; now rewrite rowsOf_blank).
  split; [exact E|].
  unfold rulesContentOf, asmContentOf, asmLinesOf, asmInstructions, expandTable,
    baseInstructions, keptInstructions.
  rewrite E. split; reflexivity.
Qed.

(** Two blank lines and an empty one. *)
Lemma X11_blank_table_witness :
  readFileInstructions blankTable = []
  /\ rulesContentOf blankTable = ""
  /\ asmContentOf blankTable = Returned asmAppendix.
Proof. apply (X11_blank_table blankTable). reflexivity. Defined.

(** *** The filter of generated names, in both revisions *)

Section FilterFacts.

Lemma endsWith_append_longer (t s u : string) :
  String.length t <= String.length u ->
  endsWith t (s ++ u) = endsWith t u.
Proof.
  intros H. unfold endsWith. rewrite length_append.
  replace (String.length s + String.length u - String.length t)
    with (String.length s + (String.length u - String.length t)) by lia.
  rewrite <- drop_drop, drop_append_length.
  f_equal. transitivity true; [|symmetry]; apply Nat.leb_le; lia.
Qed.

Lemma earlier_filter_misses_clone (r : Instruction) (mode : ImmediateMode) :
  Earlier.isImmediateModeName (name (immediateModeClone r mode)) = false.
Proof.
  unfold Earlier.isImmediateModeName, immediateModeClone. cbn [name].
  destruct mode; cbn [modeTag];
    rewrite !endsWith_append_longer by (cbn; lia); reflexivity.
Qed.

Lemma earlier_family_wellFormed (r : Instruction) :
  wellFormed r = true ->
  forallb wellFormed (Earlier.addImmediateModeClones r) = true.
Proof.
  intros H. apply forallb_forall. intros x Hx.
  unfold Earlier.addImmediateModeClones in Hx.
  destruct (includes "2" (opcodeBits r)).
  - destruct Hx as [<- | []]. exact H.
  - destruct Hx as [<- | Hx]; [exact H|].
    apply in_map_iff in Hx as (m & <- & _).
    now apply wellFormed_immediateModeClone.
Qed.

Lemma earlier_expandTable_wellFormed (input : string) :
  forallb wellFormed (readFileInstructions input) = true ->
  forallb wellFormed (Earlier.expandTable input) = true.
Proof.
  intros H. rewrite forallb_forall in H. apply forallb_forall. intros x Hx.
  unfold Earlier.expandTable in Hx. apply in_flat_map in Hx as (b & Hb & Hx).
  unfold Earlier.baseInstructions in Hb. apply in_map_iff in Hb as (k & <- & Hk).
  unfold Earlier.keptInstructions in Hk. apply filter_In in Hk as [Hk _].
  pose proof (earlier_family_wellFormed (lowercaseName k)) as W.
  rewrite forallb_forall in W. apply W; [|exact Hx].
  apply wellFormed_lowercaseName, H, Hk.
Qed.

Lemma earlier_filter_keeps_family (b : Instruction) :
  Earlier.isImmediateModeName (name b) = false ->
  forallb (fun i => negb (Earlier.isImmediateModeName (name i)))
          (Earlier.addImmediateModeClones b) = true.
Proof.
  intros Hb. apply forallb_forall. intros x Hx.
  unfold Earlier.addImmediateModeClones in Hx.
  destruct (includes "2" (opcodeBits b)).
  - destruct Hx as [<- | []]. now rewrite Hb.
  - destruct Hx as [<- | Hx]; [now rewrite Hb|].
    apply in_map_iff in Hx as (m & <- & _).
    now rewrite earlier_filter_misses_clone.
Qed.

Lemma family_size (b : Instruction) :
  1 <= List.length (addImmediateModeClones b) <= 4.
Proof.
  unfold addImmediateModeClones. destruct (includes "2" (opcodeBits b)).
  - cbn; lia.
  - rewrite modesToAdd_all. unfold getInstructionImmediateModes.
    repeat match goal with
           | |- context [String.eqb ?a ?b] => destruct (String.eqb a b)
           end; cbn; lia.
Qed.

End FilterFacts.

(** X12.  In the later revision the filter of line 476 recognises every
    name the expander generates, for every record and mode; so of the
    records a base record expands to it keeps the base record alone, when
    the base mnemonic itself does not end in a tag. *)
Theorem X12_filter_keeps_base_only :
  (forall r mode, isImmediateModeName (name (immediateModeClone r mode)) = true)
  /\ (forall b, isImmediateModeName (name b) = false ->
                filter (fun i => negb (isImmediateModeName (name i)))
                       (addImmediateModeClones b)
                = [b]).
Proof.
  split; [exact isImmediateModeName_clone | exact filter_addImmediateModeClones].
Qed.

(** The record [not]: of [not] and [noti1] the filter keeps [not]. *)
Lemma X12_filter_keeps_base_only_witness :
  filter (fun i => negb (isImmediateModeName (name i)))
         (addImmediateModeClones notRecord)
  = [notRecord].
Proof. apply (proj2 X12_filter_keeps_base_only notRecord). reflexivity. Defined.

(** X13.  In the earlier revision the filter of line 219 ([/i[abc]$/])
    recognises none of the names the expander generates (they end in [i1],
    [i2], [i12]): no clone is ever filtered out. *)
Theorem X13_earlier_filter_misses_clones (r : Instruction) (mode : ImmediateMode) :
  Earlier.isImmediateModeName (name (immediateModeClone r mode)) = false.
Proof. exact (earlier_filter_misses_clone r mode). Qed.

(** X14.  Hence the earlier revision, run on the rule table it wrote for a
    table of well-formed rows whose lowercased base mnemonics do not end in
    [ia], [ib], [ic], filters nothing out: every record of the expanded
    table, clones included, is taken as a base record again. *)
Theorem X14_earlier_reprocessing_expands_again (input : string) :
  forallb wellFormed (readFileInstructions input) = true ->
  forallb (fun i => negb (Earlier.isImmediateModeName (name i)))
          (Earlier.baseInstructions input) = true ->
  Earlier.keptInstructions (Earlier.rulesContentOf input)
  = rev (Earlier.expandTable input).
Proof.
  intros Hwf Hbase. unfold Earlier.keptInstructions, Earlier.rulesContentOf.
  rewrite readFileInstructions_stringify
    by now apply earlier_expandTable_wellFormed.
  apply forallb_filter_id, forallb_forall. intros x Hx. apply in_rev in Hx.
  unfold Earlier.expandTable in Hx. apply in_flat_map in Hx as (b & Hb & Hx).
  rewrite forallb_forall in Hbase. specialize (Hbase b Hb).
  apply negb_true_iff in Hbase.
  pose proof (earlier_filter_keeps_family b Hbase) as F.
  rewrite forallb_forall in F. now apply F.
Qed.

(** The earlier table: after a second run there is a record [addi1i1]. *)
Lemma X14_earlier_reprocessing_expands_again_witness :
  Earlier.keptInstructions (Earlier.rulesContentOf Earlier.instructions)
  = rev (Earlier.expandTable Earlier.instructions)
  /\ existsb (String.eqb "addi1i1")
        (map name (Earlier.expandTable
                     (Earlier.rulesContentOf Earlier.instructions)))
     = true.
Proof.
  split; [|vm_compute; reflexivity].
  apply (X14_earlier_reprocessing_expands_again Earlier.instructions);
    vm_compute; reflexivity.
Defined.

(** X15.  Writing well-formed records as a rule table and parsing the table
    gives the records back, last one first. *)
Theorem X15_table_round_trip (rs : list Instruction) :
  forallb wellFormed rs = true ->
  readFileInstructions (stringifyFileInstructionsForFile rs) = rev rs.
Proof. exact (readFileInstructions_stringify rs). Qed.

(** The table expanded from the embedded one. *)
Lemma X15_table_round_trip_witness :
  readFileInstructions (stringifyFileInstructionsForFile instr) = rev instr.
Proof. apply (X15_table_round_trip instr). vm_compute. reflexivity. Defined.

(** X16.  Expansion keeps the rows of the data model: when every row of a
    table parses to a well-formed record (eight characters over 0, 1, 2,
    two digits, a clean mnemonic), so is every record of the expanded
    table, in particular every opcode still has exactly eight characters. *)
Theorem X16_expansion_keeps_well_formed (input : string) :
  forallb wellFormed (readFileInstructions input) = true ->
  forallb wellFormed (expandTable input) = true
  /\ (forall i, In i (expandTable input) -> String.length (opcodeBits i) = 8).
Proof.
  intros H. pose proof (wellFormed_expandTable input H) as W.
  split; [exact W|]. intros i Hi. rewrite forallb_forall in W.
  pose proof (W i Hi) as Wi. now apply wellFormed_inv in Wi.
Qed.

(** The embedded table. *)
Lemma X16_expansion_keeps_well_formed_witness :
  forallb wellFormed (expandTable instructions) = true.
Proof.
  apply (X16_expansion_keeps_well_formed instructions). vm_compute. reflexivity.
Defined.

(** X17.  A record expands to between one and four records, so the
    expanded table has at least as many records as there are base records
    and at most four times as many. *)
Theorem X17_expansion_size (input : string) :
  List.length (baseInstructions input) <= List.length (expandTable input)
  /\ List.length (expandTable input) <= 4 * List.length (baseInstructions input).
Proof.
  unfold expandTable.
  induction (baseInstructions input) as [|b bs IH]; [cbn; lia|].
  cbn [flat_map List.length]. rewrite length_app.
  pose proof (family_size b). lia.
Qed.

(** *** Opcode bits outside the data model *)

Section StrayBits.

Lemma binary_digit_or_stop (c : ascii) :
  (Ascii.eqb c "0" || Ascii.eqb c "1" = true
   /\ digitValue c = Some (if Ascii.eqb c "1" then 1 else 0)%N)
  \/ (Ascii.eqb c "0" || Ascii.eqb c "1" = false
      /\ match digitValue c with
         | Some d => (d <? 2)%N = false
         | None => True
         end).
Proof. char_cases c; vm_compute; auto. Qed.

Lemma parseDigits_prefix (s : string) (a : N) :
  parseDigits 2 s (Some a)
  = Some (a * 2 ^ N.of_nat (String.length (binaryPrefix s))
          + binaryValue (binaryPrefix s))%N.
Proof.
  revert a; induction s as [|c s IH]; intros a.
  - cbn. f_equal. lia.
  - cbn [parseDigits binaryPrefix].
    destruct (binary_digit_or_stop c) as [[B D] | [B D]]; rewrite B.
    + rewrite D. cbn [binaryValue String.length].
      assert (((if Ascii.eqb c "1" then 1 else 0) <? 2)%N = true) as ->
        by now destruct (Ascii.eqb c "1").
      rewrite IH, Nat2N.inj_succ, N.pow_succ_r'. apply f_equal. ring.
    + destruct (digitValue c) as [d|]; [rewrite D|]; cbn; f_equal; lia.
Qed.

Lemma parseDigits_first (c : ascii) (s : string) :
  parseDigits 2 (String c s) None
  = if Ascii.eqb c "0" || Ascii.eqb c "1"
    then Some (binaryValue (binaryPrefix (String c s)))
    else None.
Proof.
  cbn [parseDigits binaryPrefix].
  destruct (binary_digit_or_stop c) as [[B D] | [B D]]; rewrite B.
  - rewrite D.
    assert (((if Ascii.eqb c "1" then 1 else 0) <? 2)%N = true) as ->
      by now destruct (Ascii.eqb c "1").
    rewrite parseDigits_prefix. cbn [binaryValue String.length].
    apply f_equal. ring.
  - destruct (digitValue c) as [d|]; [now rewrite D | reflexivity].
Qed.

End StrayBits.

(** X18.  [serializeInstructionToAsm] does not check the opcode bits beyond
    the wildcard.  When they start with a binary digit (and are at most
    eight characters long, as the opcode bits of every parsed or cloned
    record are), the number in the line is the value of the longest run of
    binary digits at the front: a stray character cuts the opcode short
    instead of raising an error. *)
Theorem X18_asm_value_of_binary_prefix (i : Instruction) (c : ascii) (rest : string) :
  opcodeBits i = String c rest ->
  Ascii.eqb c "0" || Ascii.eqb c "1" = true ->
  includes "2" (opcodeBits i) = false ->
  String.length (opcodeBits i) <= 8 ->
  serializeInstructionToAsm i
  = Returned (name i ++ " "
              ++ decimal (binaryValue (binaryPrefix (opcodeBits i)))).
Proof.
  intros E B W _. unfold serializeInstructionToAsm. rewrite W, E.
  rewrite parseInt_unsigned.
  - rewrite parseDigits_first, B. now rewrite numberToString_of_N.
  - apply orb_prop in B as [B | B]; apply Ascii.eqb_eq in B; now subst c.
  - apply orb_prop in B as [B | B]; apply Ascii.eqb_eq in B; subst c; discriminate.
  - apply orb_prop in B as [B | B]; apply Ascii.eqb_eq in B; subst c; discriminate.
Qed.

(** The bits [0000x101] are read as [0000]. *)
Lemma X18_asm_value_of_binary_prefix_witness :
  serializeInstructionToAsm strayBitsRecord = Returned "xor 0".
Proof.
  apply (X18_asm_value_of_binary_prefix strayBitsRecord "0" "000x101");
    reflexivity.
Defined.

(** X19.  When the opcode bits are empty or start with a character that is
    no binary digit, no white space and no sign, the line written is the
    mnemonic followed by [NaN]. *)
Theorem X19_asm_line_without_digits (i : Instruction) :
  includes "2" (opcodeBits i) = false ->
  match opcodeBits i with
  | "" => True
  | String c _ =>
      Ascii.eqb c "0" || Ascii.eqb c "1" = false
      /\ isWhiteSpace c = false /\ c <> "-"%char /\ c <> "+"%char
  end ->
  serializeInstructionToAsm i = Returned (name i ++ " NaN").
Proof.
  intros W H. unfold serializeInstructionToAsm. rewrite W.
  destruct (opcodeBits i) as [|c s]; [reflexivity|].
  destruct H as (B & S & M & P).
  rewrite parseInt_unsigned by assumption.
  now rewrite parseDigits_first, B.
Qed.

(** The bits [opcode]. *)
Lemma X19_asm_line_without_digits_witness :
  serializeInstructionToAsm noBitsRecord = Returned " NaN".
Proof.
  apply (X19_asm_line_without_digits noBitsRecord); [reflexivity|].
  cbn. repeat split; discriminate.
Defined.
